(** * update_sales_invoice_atomic: a shallow embedding of the stored procedure

    The procedure is a PL/pgSQL function of three statements,

      DELETE FROM sales_invoice_items WHERE invoice_id = p_invoice_id;
      UPDATE sales_invoices SET ... WHERE id = p_invoice_id RETURNING id INTO v_result;
      INSERT INTO sales_invoice_items (...) SELECT ... FROM unnest(p_new_items) AS item;

    followed by RETURN v_result.  It is modelled as a computation in a state
    and exception monad over the two tables it names.  What the function only
    relies on (the input routines of date, numeric and integer, the tables'
    constraints and the row triggers of sales_invoice_items) is an
    interface: [PgTypes] and [Schema].

    Conventions of the model:
    - a nullable SQL value is an [option], NULL being [None]; the three
      arguments of the function are taken non-NULL (a NULL patch reads like
      the JSON null, a NULL array like the empty one);
    - a table is the list of its rows; DELETE filters it, UPDATE rewrites
      the rows its WHERE clause selects, in place, INSERT appends;
    - the SET list is evaluated once per selected row, the SELECT list once
      per element of p_new_items, left to right; the casts of the SET list
      to uuid, numeric and integer, which read the patch parameter only and
      call immutable input routines, are evaluated before that, when the
      UPDATE is planned with the value of the parameter, whether or not a
      row is selected;
    - what the schema attaches to a deleted or inserted row runs once the
      statement has its rows, as AFTER ROW triggers and foreign-key checks
      do, and sees the ledger only. *)

From Stdlib Require Import ZArith NArith Ascii String List Bool Lia.
From Stdlib Require Import DecimalString.
From Stdlib Require Import Floats.PrimFloat.
From stdpp Require Import base option list strings gmap.

Set Warnings "-register-all".
#[local] Open Scope string_scope.
#[local] Open Scope list_scope.

(** ** jsonb values and the [->>] operator *)

Inductive jsonb : Type :=
| JNull
| JBool (b : bool)
| JNumber (digits : string)
| JString (s : string)
| JArray (elems : list jsonb)
| JObject (members : list (string * jsonb)).

(** The double-quote and backslash characters, written by code point. *)
Definition dquote : ascii := ascii_of_nat 34.
Definition backslash : ascii := ascii_of_nat 92.

Definition hex_char (n : N) : ascii :=
  ascii_of_N (if (n <? 10)%N then 48 + n else 87 + n).

(** jsonb's output routine escapes the quote, the backslash and the control
    characters of a string. *)
Definition escape_char (c : ascii) : string :=
  let n := N_of_ascii c in
  if Ascii.eqb c dquote then String backslash (String dquote EmptyString)
  else if Ascii.eqb c backslash then String backslash (String backslash EmptyString)
  else if (n =? 8)%N then String backslash "b"
  else if (n =? 12)%N then String backslash "f"
  else if (n =? 10)%N then String backslash "n"
  else if (n =? 13)%N then String backslash "r"
  else if (n =? 9)%N then String backslash "t"
  else if (n <? 32)%N then
    String backslash
      (String "u" (String "0" (String "0"
        (String (hex_char (n / 16)) (String (hex_char (n mod 16)) EmptyString)))))
  else String c EmptyString.

Fixpoint escape_json (s : string) : string :=
  match s with
  | EmptyString => EmptyString
  | String c rest => escape_char c +:+ escape_json rest
  end.

Definition json_quote (s : string) : string :=
  String dquote (escape_json s +:+ String dquote EmptyString).

Fixpoint join_with (sep : string) (parts : list string) : string :=
  match parts with
  | [] => EmptyString
  | [p] => p
  | p :: rest => p +:+ sep +:+ join_with sep rest
  end.

(** The text jsonb prints for a value: what [->>] returns for a member that is
    neither a string nor null. *)
Fixpoint jsonb_out (j : jsonb) : string :=
  match j with
  | JNull => "null"
  | JBool true => "true"
  | JBool false => "false"
  | JNumber digits => digits
  | JString s => json_quote s
  | JArray elems => "[" +:+ join_with ", " (List.map jsonb_out elems) +:+ "]"
  | JObject members =>
      "{" +:+ join_with ", "
               (List.map (fun kv => json_quote (fst kv) +:+ ": " +:+ jsonb_out (snd kv))
                         members)
          +:+ "}"
  end.

(** The member of an object stored under [key]; a jsonb object holds one
    member per key. *)
Fixpoint member (key : string) (members : list (string * jsonb)) : option jsonb :=
  match members with
  | [] => None
  | (k, v) :: rest => if String.eqb k key then Some v else member key rest
  end.

(** [j ->> key]: SQL NULL when [j] is not an object, when it has no such
    member, or when the member is the JSON null; the member as text
    otherwise. *)
Definition jsonb_object_field_text (j : jsonb) (key : string) : option string :=
  match j with
  | JObject members =>
      match member key members with
      | None => None
      | Some JNull => None
      | Some (JString s) => Some s
      | Some v => Some (jsonb_out v)
      end
  | _ => None
  end.

Notation "j ->> key" := (jsonb_object_field_text j key)
  (at level 40, left associativity, only parsing).

(** ** uuid

    A uuid is its 128-bit value.  [uuid_in] follows the input syntax
    PostgreSQL accepts: sixteen pairs of hexadecimal digits, an optional
    hyphen after every second pair, optionally enclosed in braces. *)

Definition uuid : Type := N.

Definition hex_digit (c : ascii) : option N :=
  let n := N_of_ascii c in
  if ((48 <=? n) && (n <=? 57))%N then Some (n - 48)%N
  else if ((97 <=? n) && (n <=? 102))%N then Some (n - 87)%N
  else if ((65 <=? n) && (n <=? 70))%N then Some (n - 55)%N
  else None.

Fixpoint uuid_bytes (i todo : nat) (src : string) (acc : N) : option (N * string) :=
  match todo with
  | O => Some (acc, src)
  | S todo' =>
      match src with
      | String c1 (String c2 rest) =>
          match hex_digit c1, hex_digit c2 with
          | Some hi, Some lo =>
              let rest' :=
                match rest with
                | String "-"%char r => if Nat.odd i && (i <? 15)%nat then r else rest
                | _ => rest
                end in
              uuid_bytes (S i) todo' rest' (acc * 256 + hi * 16 + lo)%N
          | _, _ => None
          end
      | _ => None
      end
  end.

Definition uuid_in (s : string) : option uuid :=
  let '(braces, src) :=
    match s with
    | String "{"%char r => (true, r)
    | _ => (false, s)
    end in
  match uuid_bytes 0 16 src 0 with
  | Some (v, rest) =>
      if braces
      then match rest with String "}"%char EmptyString => Some v | _ => None end
      else match rest with EmptyString => Some v | _ => None end
  | None => None
  end.


(** ** The platform and the schema, as interfaces

    [date], [numeric] and the input routines a cast from text calls are
    PostgreSQL's.  A routine returns [None] where PostgreSQL raises
    "invalid input syntax". *)

Definition timestamptz : Type := Z.

Class PgTypes : Type := {
  date : Type;
  numeric : Type;
  date_in : string -> option date;
  numeric_in : string -> option numeric;
  int4_in : string -> option Z
}.

(** The columns of sales_invoices: the twelve the UPDATE assigns, the key
    its WHERE clause reads, and the others, which the function never names. *)
Module SalesInvoices.
Section Columns.
Context `{PgTypes}.

Record row : Type := {
  id : uuid;
  invoice_date : option date;
  due_date : option date;
  customer_id : option uuid;
  subtotal : option numeric;
  tax_amount : option numeric;
  total_amount : option numeric;
  discount_amount : option numeric;
  po_number : option string;
  payment_terms_days : option Z;
  notes : option string;
  payment_terms : option string;
  updated_at : option timestamptz;
  other_columns : list (string * option string)
}.
End Columns.
End SalesInvoices.

(** The columns of sales_invoice_items the INSERT lists.  Columns it leaves
    to their defaults are not part of the model. *)
Module SalesInvoiceItems.
Section Columns.
Context `{PgTypes}.

Record row : Type := {
  invoice_id : uuid;
  product_id : option uuid;
  batch_id : option uuid;
  quantity : option numeric;
  unit_price : option numeric;
  tax_rate : option numeric;
  total_amount : option numeric;
  delivery_challan_item_id : option uuid;
  max_quantity : option numeric
}.
End Columns.
End SalesInvoiceItems.

(** What the tables' declarations add to the three statements: constraints
    (NOT NULL, CHECK, foreign keys) and row triggers.  [ledger] is the state
    they read and write besides the two tables (stock counters, the
    referenced tables); [None] and [false] stand for a raised error. *)
Class Schema `{PgTypes} : Type := {
  ledger : Type;
  invoice_constraints : ledger -> SalesInvoices.row -> bool;
  item_deleted : SalesInvoiceItems.row -> ledger -> option ledger;
  item_inserted :
    list SalesInvoices.row -> SalesInvoiceItems.row -> ledger -> option ledger
}.

(** ** Errors, database state and the PL/pgSQL monad *)

Inductive sqltype : Type := ty_date | ty_numeric | ty_integer | ty_uuid.

Inductive statement : Type := stmt_delete | stmt_update | stmt_insert.

(** The function has no RAISE of its own: an error is a failed cast or a
    rejection by the schema. *)
Inductive pg_error : Type :=
| invalid_text_representation (ty : sqltype) (text : string)
| schema_violation (during : statement).

Definition result (A : Type) : Type := pg_error + A.

#[global] Instance result_ret : MRet result := fun A a => inr a.
#[global] Instance result_bind : MBind result :=
  fun A B f m => match m with inl e => inl e | inr a => f a end.

(** [text::T]: NULL casts to NULL, any other text goes through the input
    routine of [T]. *)
Definition cast {T : Type} (ty : sqltype) (input : string -> option T)
    (text : option string) : result (option T) :=
  match text with
  | None => inr None
  | Some t =>
      match input t with
      | Some v => inr (Some v)
      | None => inl (invalid_text_representation ty t)
      end
  end.

Definition COALESCE {T : Type} (a b : option T) : option T :=
  match a with
  | Some v => Some v
  | None => b
  end.

Definition NULLIF (a : option string) (b : string) : option string :=
  match a with
  | Some t => if String.eqb t b then None else Some t
  | None => None
  end.

Section Procedure.
Context `{Schema}.

Record database : Type := {
  sales_invoices : list SalesInvoices.row;
  sales_invoice_items : list SalesInvoiceItems.row;
  ledger_state : ledger
}.

(** Row-level effects, in the order the statements perform them. *)
Inductive event : Type :=
| item_delete (r : SalesInvoiceItems.row)
| invoice_update (r : SalesInvoices.row)
| item_insert (r : SalesInvoiceItems.row).

Record session : Type := {
  db : database;
  log : list event
}.

(** A statement either completes or raises; both leave the session as it
    is at that point.  Undoing the effects of a raise is the transaction's
    work ([transaction] below), not the function's. *)
Inductive outcome (A : Type) : Type :=
| Done (a : A) (s : session)
| Raised (e : pg_error) (s : session).
#[global] Arguments Done {A} a s.
#[global] Arguments Raised {A} e s.

Definition plpgsql (A : Type) : Type := session -> outcome A.

#[global] Instance plpgsql_ret : MRet plpgsql := fun A a s => Done a s.
#[global] Instance plpgsql_bind : MBind plpgsql :=
  fun A B f m s =>
    match m s with
    | Done a s' => f a s'
    | Raised e s' => Raised e s'
    end.

Definition raise {A : Type} (e : pg_error) : plpgsql A := fun s => Raised e s.

Definition lift {A : Type} (r : result A) : plpgsql A :=
  fun s => match r with inl e => Raised e s | inr a => Done a s end.

Definition read_db : plpgsql database := fun s => Done (db s) s.

Definition write_db (d : database) : plpgsql unit :=
  fun s => Done tt {| db := d; log := log s |}.

Definition emit (ev : event) : plpgsql unit :=
  fun s => Done tt {| db := db s; log := log s ++ [ev] |}.

(** Runs what the schema attaches to a row event. *)
Definition fire (during : statement) (effect : ledger -> option ledger)
    : plpgsql unit :=
  d ← read_db;
  match effect (ledger_state d) with
  | Some l =>
      write_db {| sales_invoices := sales_invoices d;
                  sales_invoice_items := sales_invoice_items d;
                  ledger_state := l |}
  | None => raise (schema_violation during)
  end.

Fixpoint for_each {A : Type} (f : A -> plpgsql unit) (l : list A) : plpgsql unit :=
  match l with
  | [] => mret tt
  | x :: rest => f x;; for_each f rest
  end.

(** *** Step 1: DELETE FROM sales_invoice_items WHERE invoice_id = p_invoice_id *)
Definition delete_old_items (p_invoice_id : uuid) : plpgsql unit :=
  d ← read_db;
  let old := sales_invoice_items d in
  write_db {| sales_invoices := sales_invoices d;
              sales_invoice_items :=
                filter (fun r => SalesInvoiceItems.invoice_id r <> p_invoice_id) old;
              ledger_state := ledger_state d |};;
  for_each (fun r => fire stmt_delete (item_deleted r);; emit (item_delete r))
           (filter (fun r => SalesInvoiceItems.invoice_id r = p_invoice_id) old).

(** *** Step 2: UPDATE sales_invoices SET ... WHERE id = p_invoice_id *)

(** The SET list, evaluated on one row. *)
Definition set_clause (now : timestamptz) (p_invoice_updates : jsonb)
    (r : SalesInvoices.row) : result SalesInvoices.row :=
  v_invoice_date ← cast ty_date date_in (p_invoice_updates ->> "invoice_date");
  v_due_date ← cast ty_date date_in (p_invoice_updates ->> "due_date");
  v_customer_id ← cast ty_uuid uuid_in (p_invoice_updates ->> "customer_id");
  v_subtotal ← cast ty_numeric numeric_in (p_invoice_updates ->> "subtotal");
  v_tax_amount ← cast ty_numeric numeric_in (p_invoice_updates ->> "tax_amount");
  v_total_amount ← cast ty_numeric numeric_in (p_invoice_updates ->> "total_amount");
  v_discount_amount ←
    cast ty_numeric numeric_in (p_invoice_updates ->> "discount_amount");
  v_payment_terms_days ←
    cast ty_integer int4_in (p_invoice_updates ->> "payment_terms_days");
  mret {|
    SalesInvoices.id := SalesInvoices.id r;
    SalesInvoices.invoice_date := COALESCE v_invoice_date (SalesInvoices.invoice_date r);
    SalesInvoices.due_date := COALESCE v_due_date (SalesInvoices.due_date r);
    SalesInvoices.customer_id := COALESCE v_customer_id (SalesInvoices.customer_id r);
    SalesInvoices.subtotal := COALESCE v_subtotal (SalesInvoices.subtotal r);
    SalesInvoices.tax_amount := COALESCE v_tax_amount (SalesInvoices.tax_amount r);
    SalesInvoices.total_amount :=
      COALESCE v_total_amount (SalesInvoices.total_amount r);
    SalesInvoices.discount_amount :=
      COALESCE v_discount_amount (SalesInvoices.discount_amount r);
    SalesInvoices.po_number :=
      COALESCE (p_invoice_updates ->> "po_number") (SalesInvoices.po_number r);
    SalesInvoices.payment_terms_days :=
      COALESCE v_payment_terms_days (SalesInvoices.payment_terms_days r);
    SalesInvoices.notes :=
      COALESCE (p_invoice_updates ->> "notes") (SalesInvoices.notes r);
    SalesInvoices.payment_terms :=
      COALESCE (p_invoice_updates ->> "payment_terms") (SalesInvoices.payment_terms r);
    SalesInvoices.updated_at := Some now;
    SalesInvoices.other_columns := SalesInvoices.other_columns r
  |}.

(** The new version of a row must pass the table's constraints. *)
Definition checked (l : ledger) (r : SalesInvoices.row) : result SalesInvoices.row :=
  if invoice_constraints l r then inr r else inl (schema_violation stmt_update).

Definition new_version (now : timestamptz) (p_invoice_updates : jsonb) (l : ledger)
    (r : SalesInvoices.row) : result SalesInvoices.row :=
  r' ← set_clause now p_invoice_updates r;
  checked l r'.

(** Rewrites the rows the WHERE clause selects; returns the new table and
    the rows RETURNING yields, in table order. *)
Fixpoint update_where (cond : SalesInvoices.row -> bool)
    (set : SalesInvoices.row -> result SalesInvoices.row)
    (rows : list SalesInvoices.row)
    : result (list SalesInvoices.row * list SalesInvoices.row) :=
  match rows with
  | [] => mret ([], [])
  | r :: rest =>
      if cond r then
        r' ← set r;
        '(rest', returned) ← update_where cond set rest;
        mret (r' :: rest', r' :: returned)
      else
        '(rest', returned) ← update_where cond set rest;
        mret (r :: rest', returned)
  end.

(** What planning the UPDATE evaluates.  The patch is a parameter of the
    statement, and the input routines of uuid, numeric and integer are
    immutable: PostgreSQL computes these six casts once, with the value of
    the parameter, before any row is looked at, and raises their errors even
    when the WHERE clause selects no row.  The input routine of date is
    stable: the two date casts are left to the evaluation of the SET list on
    each selected row. *)
Definition planned_casts (p_invoice_updates : jsonb) : result unit :=
  cast ty_uuid uuid_in (p_invoice_updates ->> "customer_id");;
  cast ty_numeric numeric_in (p_invoice_updates ->> "subtotal");;
  cast ty_numeric numeric_in (p_invoice_updates ->> "tax_amount");;
  cast ty_numeric numeric_in (p_invoice_updates ->> "total_amount");;
  cast ty_numeric numeric_in (p_invoice_updates ->> "discount_amount");;
  cast ty_integer int4_in (p_invoice_updates ->> "payment_terms_days");;
  mret tt.

(** RETURNING id INTO v_result: the first returned row, NULL when the
    UPDATE touched none. *)
Definition update_header (now : timestamptz) (p_invoice_id : uuid)
    (p_invoice_updates : jsonb) : plpgsql (option uuid) :=
  d ← read_db;
  lift (planned_casts p_invoice_updates);;
  '(table, returned) ←
    lift (update_where
            (fun r => bool_decide (SalesInvoices.id r = p_invoice_id))
            (new_version now p_invoice_updates (ledger_state d))
            (sales_invoices d));
  write_db {| sales_invoices := table;
              sales_invoice_items := sales_invoice_items d;
              ledger_state := ledger_state d |};;
  for_each (fun r => emit (invoice_update r)) returned;;
  mret (head (SalesInvoices.id <$> returned)).

(** *** Step 3: INSERT INTO sales_invoice_items (...) SELECT ... FROM unnest(p_new_items) *)

(** The SELECT list, evaluated on one element of p_new_items. *)
Definition select_item (p_invoice_id : uuid) (item : jsonb)
    : result SalesInvoiceItems.row :=
  v_product_id ← cast ty_uuid uuid_in (item ->> "product_id");
  v_batch_id ← cast ty_uuid uuid_in (item ->> "batch_id");
  v_quantity ← cast ty_numeric numeric_in (item ->> "quantity");
  v_unit_price ← cast ty_numeric numeric_in (item ->> "unit_price");
  v_tax_rate ← cast ty_numeric numeric_in (item ->> "tax_rate");
  v_total_amount ← cast ty_numeric numeric_in (item ->> "total_amount");
  v_delivery_challan_item_id ←
    cast ty_uuid uuid_in (NULLIF (item ->> "delivery_challan_item_id") EmptyString);
  v_max_quantity ← cast ty_numeric numeric_in (item ->> "max_quantity");
  mret {|
    SalesInvoiceItems.invoice_id := p_invoice_id;
    SalesInvoiceItems.product_id := v_product_id;
    SalesInvoiceItems.batch_id := v_batch_id;
    SalesInvoiceItems.quantity := v_quantity;
    SalesInvoiceItems.unit_price := v_unit_price;
    SalesInvoiceItems.tax_rate := v_tax_rate;
    SalesInvoiceItems.total_amount := v_total_amount;
    SalesInvoiceItems.delivery_challan_item_id := v_delivery_challan_item_id;
    SalesInvoiceItems.max_quantity := v_max_quantity
  |}.

Definition insert_new_items (p_invoice_id : uuid) (p_new_items : list jsonb)
    : plpgsql unit :=
  rows ← lift (mapM (select_item p_invoice_id) p_new_items);
  d ← read_db;
  write_db {| sales_invoices := sales_invoices d;
              sales_invoice_items := sales_invoice_items d ++ rows;
              ledger_state := ledger_state d |};;
  for_each (fun r => fire stmt_insert (item_inserted (sales_invoices d) r);;
                     emit (item_insert r))
           rows.

(** *** The function body *)
Definition update_sales_invoice_atomic (now : timestamptz) (p_invoice_id : uuid)
    (p_invoice_updates : jsonb) (p_new_items : list jsonb) : plpgsql (option uuid) :=
  delete_old_items p_invoice_id;;
  v_result ← update_header now p_invoice_id p_invoice_updates;
  insert_new_items p_invoice_id p_new_items;;
  mret v_result.

(** A call runs in one transaction: a raise leaves the database as it was
    before the call. *)
Definition transaction {A : Type} (body : plpgsql A) (d : database)
    : result A * database :=
  match body {| db := d; log := [] |} with
  | Done a s => (inr a, db s)
  | Raised e _ => (inl e, d)
  end.

(** The operation as the caller sees it; [now] is the value of NOW(). *)
Definition apply_invoice_update (now : timestamptz) (d : database)
    (invoice_id : uuid) (header_patch : jsonb) (replacement_items : list jsonb)
    : result (option uuid) * database :=
  transaction
    (update_sales_invoice_atomic now invoice_id header_patch replacement_items) d.

(** The row events of a call, whether it completes or raises. *)
Definition trace {A : Type} (body : plpgsql A) (d : database) : list event :=
  match body {| db := d; log := [] |} with
  | Done _ s => log s
  | Raised _ s => log s
  end.

End Procedure.

(** ** Vocabulary of the statements about the function *)

Section Vocabulary.
Context `{Schema}.

(** The row effects of one statement, run in row order. *)
Fixpoint fold_effects {R : Type} (effect : R -> ledger -> option ledger)
    (rows : list R) (l : ledger) : option ledger :=
  match rows with
  | [] => Some l
  | r :: rest =>
      match effect r l with
      | Some l' => fold_effects effect rest l'
      | None => None
      end
  end.

Definition items_of (invoice_id : uuid) (d : database) : list SalesInvoiceItems.row :=
  filter (fun r => SalesInvoiceItems.invoice_id r = invoice_id) (sales_invoice_items d).

Definition items_of_others (invoice_id : uuid) (d : database)
    : list SalesInvoiceItems.row :=
  filter (fun r => SalesInvoiceItems.invoice_id r <> invoice_id) (sales_invoice_items d).

Definition invoice_exists (invoice_id : uuid) (d : database) : Prop :=
  exists r, In r (sales_invoices d) /\ SalesInvoices.id r = invoice_id.

(** Whether the input routine of a type accepts a text. *)
Definition input_ok (ty : sqltype) (text : string) : bool :=
  match ty with
  | ty_date => bool_decide (is_Some (date_in text))
  | ty_numeric => bool_decide (is_Some (numeric_in text))
  | ty_integer => bool_decide (is_Some (int4_in text))
  | ty_uuid => bool_decide (is_Some (uuid_in text))
  end.

(** The patch keys and item keys that go through a cast, with its target. *)
Definition header_casts : list (string * sqltype) :=
  [("invoice_date", ty_date); ("due_date", ty_date); ("customer_id", ty_uuid);
   ("subtotal", ty_numeric); ("tax_amount", ty_numeric);
   ("total_amount", ty_numeric); ("discount_amount", ty_numeric);
   ("payment_terms_days", ty_integer)].

Definition item_casts : list (string * sqltype) :=
  [("product_id", ty_uuid); ("batch_id", ty_uuid); ("quantity", ty_numeric);
   ("unit_price", ty_numeric); ("tax_rate", ty_numeric);
   ("total_amount", ty_numeric); ("delivery_challan_item_id", ty_uuid);
   ("max_quantity", ty_numeric)].

(** The eleven patch keys the SET list reads. *)
Definition updatable_fields : list string :=
  ["invoice_date"; "due_date"; "customer_id"; "subtotal"; "tax_amount";
   "total_amount"; "discount_amount"; "po_number"; "payment_terms_days";
   "notes"; "payment_terms"].

(** A patch with only the members [keep] selects. *)
Definition restrict_patch (keep : string -> bool) (patch : jsonb) : jsonb :=
  match patch with
  | JObject members => JObject (List.filter (fun kv => keep (fst kv)) members)
  | _ => patch
  end.

(** *** The header patch in the specification's words

    A field is set to the coerced patch value when its key is present with
    a non-null value, and keeps its prior value when the key is absent or
    null. *)

Definition present_non_null (patch : jsonb) (key : string) : option jsonb :=
  match patch with
  | JObject members =>
      match member key members with
      | Some JNull => None
      | Some v => Some v
      | None => None
      end
  | _ => None
  end.

Definition as_text (v : jsonb) : string :=
  match v with
  | JString s => s
  | _ => jsonb_out v
  end.

Definition patched_field {T : Type} (input : string -> option T) (patch : jsonb)
    (key : string) (prior after : option T) : Prop :=
  match present_non_null patch key with
  | Some v => exists coerced, input (as_text v) = Some coerced /\ after = Some coerced
  | None => after = prior
  end.

Record header_patched (now : timestamptz) (patch : jsonb)
    (r r' : SalesInvoices.row) : Prop := {
  patched_invoice_date :
    patched_field date_in patch "invoice_date"
      (SalesInvoices.invoice_date r) (SalesInvoices.invoice_date r');
  patched_due_date :
    patched_field date_in patch "due_date"
      (SalesInvoices.due_date r) (SalesInvoices.due_date r');
  patched_customer_id :
    patched_field uuid_in patch "customer_id"
      (SalesInvoices.customer_id r) (SalesInvoices.customer_id r');
  patched_subtotal :
    patched_field numeric_in patch "subtotal"
      (SalesInvoices.subtotal r) (SalesInvoices.subtotal r');
  patched_tax_amount :
    patched_field numeric_in patch "tax_amount"
      (SalesInvoices.tax_amount r) (SalesInvoices.tax_amount r');
  patched_total_amount :
    patched_field numeric_in patch "total_amount"
      (SalesInvoices.total_amount r) (SalesInvoices.total_amount r');
  patched_discount_amount :
    patched_field numeric_in patch "discount_amount"
      (SalesInvoices.discount_amount r) (SalesInvoices.discount_amount r');
  patched_po_number :
    patched_field Some patch "po_number"
      (SalesInvoices.po_number r) (SalesInvoices.po_number r');
  patched_payment_terms_days :
    patched_field int4_in patch "payment_terms_days"
      (SalesInvoices.payment_terms_days r) (SalesInvoices.payment_terms_days r');
  patched_notes :
    patched_field Some patch "notes"
      (SalesInvoices.notes r) (SalesInvoices.notes r');
  patched_payment_terms :
    patched_field Some patch "payment_terms"
      (SalesInvoices.payment_terms r) (SalesInvoices.payment_terms r');
  patched_updated_at : SalesInvoices.updated_at r' = Some now
}.

(** No field that held a value holds NULL afterwards. *)
Record never_cleared (r r' : SalesInvoices.row) : Prop := {
  kept_invoice_date :
    is_Some (SalesInvoices.invoice_date r) -> is_Some (SalesInvoices.invoice_date r');
  kept_due_date :
    is_Some (SalesInvoices.due_date r) -> is_Some (SalesInvoices.due_date r');
  kept_customer_id :
    is_Some (SalesInvoices.customer_id r) -> is_Some (SalesInvoices.customer_id r');
  kept_subtotal :
    is_Some (SalesInvoices.subtotal r) -> is_Some (SalesInvoices.subtotal r');
  kept_tax_amount :
    is_Some (SalesInvoices.tax_amount r) -> is_Some (SalesInvoices.tax_amount r');
  kept_total_amount :
    is_Some (SalesInvoices.total_amount r) -> is_Some (SalesInvoices.total_amount r');
  kept_discount_amount :
    is_Some (SalesInvoices.discount_amount r)
    -> is_Some (SalesInvoices.discount_amount r');
  kept_po_number :
    is_Some (SalesInvoices.po_number r) -> is_Some (SalesInvoices.po_number r');
  kept_payment_terms_days :
    is_Some (SalesInvoices.payment_terms_days r)
    -> is_Some (SalesInvoices.payment_terms_days r');
  kept_notes :
    is_Some (SalesInvoices.notes r) -> is_Some (SalesInvoices.notes r');
  kept_payment_terms :
    is_Some (SalesInvoices.payment_terms r) -> is_Some (SalesInvoices.payment_terms r')
}.


(** *** The fulfillment-line reference in the specification's words *)

Definition stored_reference (item : jsonb) (r : SalesInvoiceItems.row) : Prop :=
  match item ->> "delivery_challan_item_id" with
  | None => SalesInvoiceItems.delivery_challan_item_id r = None
  | Some s =>
      if String.eqb s EmptyString
      then SalesInvoiceItems.delivery_challan_item_id r = None
      else exists u, uuid_in s = Some u
                     /\ SalesInvoiceItems.delivery_challan_item_id r = Some u
  end.

(** An item with a member removed, and the item in which an empty
    fulfillment-line reference is left out. *)
Definition without (key : string) (j : jsonb) : jsonb :=
  match j with
  | JObject members =>
      JObject (List.filter (fun kv => negb (String.eqb (fst kv) key)) members)
  | _ => j
  end.

Definition empty_reference_left_out (item : jsonb) : jsonb :=
  match item ->> "delivery_challan_item_id" with
  | Some s => if String.eqb s EmptyString then without "delivery_challan_item_id" item else item
  | None => item
  end.

(** The call failed with some error and left the database [d]. *)
Definition aborted (outcome : result (option uuid) * database) (d : database) : Prop :=
  exists e, outcome = (inl e, d).

End Vocabulary.

(** ** The stock ledger *)

(** Arithmetic on [numeric], as the triggers use it. *)
Class NumericArith `{PgTypes} : Type := {
  numeric_add : numeric -> numeric -> numeric;
  numeric_sub : numeric -> numeric -> numeric;
  numeric_le : numeric -> numeric -> bool
}.

Section StockLedger.
Context `{NumericArith}.

(** Modelled from the spec: the stock trigger fired by deleting a line
    item, which is not among the source files.  "Deletion restores
    quantity": the item's quantity is added back to the on-hand quantity of
    its product. *)
Definition restore_stock (r : SalesInvoiceItems.row) (stock : gmap uuid numeric)
    : option (gmap uuid numeric) :=
  match SalesInvoiceItems.product_id r, SalesInvoiceItems.quantity r with
  | Some product, Some q =>
      match stock !! product with
      | Some on_hand => Some (<[product := numeric_add on_hand q]> stock)
      | None => Some stock
      end
  | _, _ => Some stock
  end.

(** Modelled from the spec: the maximum-quantity ceiling check of the
    stock trigger fired by inserting a line item ("an optional
    maximum-allowed-quantity ceiling used by stock-validation triggers"): an
    item that carries a ceiling may not have a quantity above it. *)
Definition within_ceiling (r : SalesInvoiceItems.row) : bool :=
  match SalesInvoiceItems.quantity r, SalesInvoiceItems.max_quantity r with
  | Some q, Some ceiling => numeric_le q ceiling
  | _, _ => true
  end.

(** Modelled from the spec: the stock trigger fired by inserting a line
    item, which is not among the source files.  "Insertion deducts it",
    "subject to a maximum-quantity ceiling check"; the product reference
    "must reference an existing product"; an insertion that would take the
    on-hand quantity below zero is rejected. *)
Definition deduct_stock (r : SalesInvoiceItems.row) (stock : gmap uuid numeric)
    : option (gmap uuid numeric) :=
  match SalesInvoiceItems.product_id r, SalesInvoiceItems.quantity r with
  | Some product, Some q =>
      if within_ceiling r
      then match stock !! product with
           | Some on_hand =>
               if numeric_le q on_hand
               then Some (<[product := numeric_sub on_hand q]> stock)
               else None
           | None => None
           end
      else None
  | _, _ => None
  end.

(** Modelled from the spec: the schema of the two tables, which is not
    among the source files, reduced to the stock ledger of section 3; the
    header has no constraint of its own here. *)
#[global] Instance stock_ledger : Schema := {|
  ledger := gmap uuid numeric;
  invoice_constraints := fun _ _ => true;
  item_deleted := restore_stock;
  item_inserted := fun _ => deduct_stock
|}.

(** The on-hand quantity of a product. *)
Definition on_hand (d : @database _ stock_ledger) (product : uuid) : option numeric :=
  (ledger_state d : gmap uuid numeric) !! product.
End StockLedger.

(** ** A small instance of the platform, for examples

    Dates are ISO dates, numerics and integers unsigned whole numbers: a
    fragment of what PostgreSQL's input routines accept. *)

Fixpoint digits_value (s : string) (acc : N) : option N :=
  match s with
  | EmptyString => Some acc
  | String c rest =>
      let n := N_of_ascii c in
      if ((48 <=? n) && (n <=? 57))%N
      then digits_value rest (acc * 10 + (n - 48))%N
      else None
  end.

Definition whole_number_in (s : string) : option Z :=
  match s with
  | EmptyString => None
  | _ => Z.of_N <$> digits_value s 0
  end.

Definition iso_date_in (s : string) : option (Z * Z * Z) :=
  if bool_decide (String.length s = 10%nat
                  /\ String.get 4 s = Some "-"%char /\ String.get 7 s = Some "-"%char)
  then
    y ← whole_number_in (String.substring 0 4 s);
    m ← whole_number_in (String.substring 5 2 s);
    d ← whole_number_in (String.substring 8 2 s);
    if ((1 <=? m) && (m <=? 12) && (1 <=? d) && (d <=? 31))%Z
    then Some (y, m, d) else None
  else None.

Definition small_int4_in (s : string) : option Z :=
  n ← whole_number_in s;
  if (n <? 2 ^ 31)%Z then Some n else None.

#[global] Instance whole_numbers : PgTypes := {|
  date := Z * Z * Z;
  numeric := Z;
  date_in := iso_date_in;
  numeric_in := whole_number_in;
  int4_in := small_int4_in
|}.

#[global] Instance whole_number_arith : NumericArith := {|
  numeric_add := Z.add;
  numeric_sub := Z.sub;
  numeric_le := Z.leb
|}.

Module Examples.

Definition widget : uuid := 161%N.

Definition invoice_7 : SalesInvoices.row := {|
  SalesInvoices.id := 7%N;
  SalesInvoices.invoice_date := Some (2024, 1, 15)%Z;
  SalesInvoices.due_date := None;
  SalesInvoices.customer_id := Some 3%N;
  SalesInvoices.subtotal := Some 100%Z;
  SalesInvoices.tax_amount := Some 10%Z;
  SalesInvoices.total_amount := Some 110%Z;
  SalesInvoices.discount_amount := None;
  SalesInvoices.po_number := Some "PO-1";
  SalesInvoices.payment_terms_days := Some 30%Z;
  SalesInvoices.notes := Some "first";
  SalesInvoices.payment_terms := None;
  SalesInvoices.updated_at := Some 1000%Z;
  SalesInvoices.other_columns := [("invoice_number", Some "INV-7")]
|}.

Definition old_item (invoice : uuid) (q : Z) : SalesInvoiceItems.row := {|
  SalesInvoiceItems.invoice_id := invoice;
  SalesInvoiceItems.product_id := Some widget;
  SalesInvoiceItems.batch_id := None;
  SalesInvoiceItems.quantity := Some q;
  SalesInvoiceItems.unit_price := Some 20%Z;
  SalesInvoiceItems.tax_rate := Some 0%Z;
  SalesInvoiceItems.total_amount := Some (20 * q)%Z;
  SalesInvoiceItems.delivery_challan_item_id := None;
  SalesInvoiceItems.max_quantity := None
|}.

(** Invoice 7 holds one item of 5 widgets; 2 widgets are on hand. *)
Definition shop : database := {|
  sales_invoices := [invoice_7];
  sales_invoice_items := [old_item 7%N 5%Z];
  ledger_state := {[ widget := 2%Z ]}
|}.

Definition new_item (q reference batch : string) : jsonb :=
  JObject [("product_id", JString "00000000-0000-0000-0000-0000000000a1");
           ("batch_id", JString batch);
           ("quantity", JNumber q);
           ("unit_price", JNumber "20");
           ("delivery_challan_item_id", JString reference)].

Definition item_without_batch (q reference : string) : jsonb :=
  JObject [("product_id", JString "00000000-0000-0000-0000-0000000000a1");
           ("quantity", JNumber q);
           ("unit_price", JNumber "20");
           ("delivery_challan_item_id", JString reference)].

Definition item_with_ceiling (q ceiling : string) : jsonb :=
  JObject [("product_id", JString "00000000-0000-0000-0000-0000000000a1");
           ("quantity", JNumber q);
           ("unit_price", JNumber "20");
           ("max_quantity", JNumber ceiling)].

Definition note_patch : jsonb :=
  JObject [("notes", JString "second"); ("bogus", JBool true)].

Definition date_patch : jsonb :=
  JObject [("invoice_date", JString "not-a-date")].

Definition subtotal_patch : jsonb :=
  JObject [("subtotal", JString "abc")].


(** Invoice 7 after the note is patched and its 5 widgets are replaced
    by 6: updated at 2000, and 1 widget is left on hand. *)
Definition shop_after : database := {|
  sales_invoices :=
    [{| SalesInvoices.id := 7%N;
        SalesInvoices.invoice_date := Some (2024, 1, 15)%Z;
        SalesInvoices.due_date := None;
        SalesInvoices.customer_id := Some 3%N;
        SalesInvoices.subtotal := Some 100%Z;
        SalesInvoices.tax_amount := Some 10%Z;
        SalesInvoices.total_amount := Some 110%Z;
        SalesInvoices.discount_amount := None;
        SalesInvoices.po_number := Some "PO-1";
        SalesInvoices.payment_terms_days := Some 30%Z;
        SalesInvoices.notes := Some "second";
        SalesInvoices.payment_terms := None;
        SalesInvoices.updated_at := Some 2000%Z;
        SalesInvoices.other_columns := [("invoice_number", Some "INV-7")] |}];
  sales_invoice_items :=
    [{| SalesInvoiceItems.invoice_id := 7%N;
        SalesInvoiceItems.product_id := Some widget;
        SalesInvoiceItems.batch_id := None;
        SalesInvoiceItems.quantity := Some 6%Z;
        SalesInvoiceItems.unit_price := Some 20%Z;
        SalesInvoiceItems.tax_rate := None;
        SalesInvoiceItems.total_amount := None;
        SalesInvoiceItems.delivery_challan_item_id := None;
        SalesInvoiceItems.max_quantity := None |}];
  ledger_state := <[widget := 1%Z]> (<[widget := 7%Z]> {[ widget := 2%Z ]})
|}.

End Examples.


(** ** More vocabulary: patches and items member by member *)

Section Members.
Context `{Schema}.

(** A header row stamped with the time of the call and otherwise as it is. *)
Definition stamped (now : timestamptz) (r : SalesInvoices.row) : SalesInvoices.row :=
  {| SalesInvoices.id := SalesInvoices.id r;
     SalesInvoices.invoice_date := SalesInvoices.invoice_date r;
     SalesInvoices.due_date := SalesInvoices.due_date r;
     SalesInvoices.customer_id := SalesInvoices.customer_id r;
     SalesInvoices.subtotal := SalesInvoices.subtotal r;
     SalesInvoices.tax_amount := SalesInvoices.tax_amount r;
     SalesInvoices.total_amount := SalesInvoices.total_amount r;
     SalesInvoices.discount_amount := SalesInvoices.discount_amount r;
     SalesInvoices.po_number := SalesInvoices.po_number r;
     SalesInvoices.payment_terms_days := SalesInvoices.payment_terms_days r;
     SalesInvoices.notes := SalesInvoices.notes r;
     SalesInvoices.payment_terms := SalesInvoices.payment_terms r;
     SalesInvoices.updated_at := Some now;
     SalesInvoices.other_columns := SalesInvoices.other_columns r |}.

(** Whether [key] is present in [j] with a value other than null. *)
Definition has_value (j : jsonb) (key : string) : bool :=
  bool_decide (is_Some (present_non_null j key)).

(** [j] without the members that are null. *)
Definition drop_nulls (j : jsonb) : jsonb := restrict_patch (has_value j) j.

Definition members_of (j : jsonb) : list (string * jsonb) :=
  match j with
  | JObject members => members
  | _ => []
  end.

(** The members of [later] that have a value, then those of [earlier]:
    the patch in which a value of [later] hides the member of [earlier]. *)
Definition overlay (later earlier : jsonb) : jsonb :=
  JObject (members_of (drop_nulls later) ++ members_of earlier).

(** The eight members of an item the SELECT list reads. *)
Definition item_fields : list string := List.map fst item_casts.

End Members.

Module MoreExamples.
Import Examples.

(** An item that carries an invoice_id of its own. *)
Definition item_of_another_invoice : jsonb :=
  JObject [("invoice_id", JString "00000000-0000-0000-0000-000000000009");
           ("product_id", JString "00000000-0000-0000-0000-0000000000a1");
           ("quantity", JNumber "6");
           ("delivery_challan_item_id", JNull)].

(** A patch with no value for any of the eleven fields. *)
Definition null_patch : jsonb :=
  JObject [("notes", JNull); ("bogus", JBool true)].

Definition order_patch : jsonb :=
  JObject [("po_number", JString "PO-2"); ("notes", JNull)].

End MoreExamples.

(** * The forms of the user interface

    The React components keep their form state in [useState] cells and
    rewrite it in event handlers.  A handler is modelled as the function
    from the state it reads to the state it sets; a value that may be null
    is an [option]. *)

(** [a || b] on a string that may be null: [a] unless it is null or empty. *)
Definition or_string (a : option string) (b : string) : string :=
  match a with
  | Some t => if String.eqb t EmptyString then b else t
  | None => b
  end.


(** [a || null] on a string. *)
Definition or_null (a : string) : option string :=
  if String.eqb a EmptyString then None else Some a.

(** ** ProductSources: the source form *)

Module ProductSources.

Record ProductSource : Type := {
  id : string;
  product_id : string;
  supplier_id : option string;
  supplier_name : option string;
  grade : option string;
  country : option string;
  remarks : option string;
  supplier_company_name : option string
}.

Record FormData : Type := {
  form_supplier_id : string;
  form_supplier_name : string;
  form_grade : string;
  form_country : string;
  form_remarks : string
}.

(** What handleSubmit sends to product_sources. *)
Record SavedData : Type := {
  saved_product_id : string;
  saved_supplier_id : option string;
  saved_supplier_name : option string;
  saved_grade : option string;
  saved_country : option string;
  saved_remarks : option string
}.

(** resetForm, and the initial state of the form. *)
Definition resetForm : FormData := {|
  form_supplier_id := EmptyString;
  form_supplier_name := EmptyString;
  form_grade := "BP";
  form_country := EmptyString;
  form_remarks := EmptyString
|}.

(** handleEdit: the form a stored source is edited in. *)
Definition handleEdit (source : ProductSource) : FormData := {|
  form_supplier_id := or_string (supplier_id source) EmptyString;
  form_supplier_name := or_string (supplier_name source) EmptyString;
  form_grade := or_string (grade source) "BP";
  form_country := or_string (country source) EmptyString;
  form_remarks := or_string (remarks source) EmptyString
|}.

(** handleSubmit: dataToSave. *)
Definition dataToSave (productId : string) (formData : FormData) : SavedData := {|
  saved_product_id := productId;
  saved_supplier_id := or_null (form_supplier_id formData);
  saved_supplier_name := or_null (form_supplier_name formData);
  saved_grade := or_null (form_grade formData);
  saved_country := or_null (form_country formData);
  saved_remarks := or_null (form_remarks formData)
|}.

(** The stored source once the update of handleSubmit has replaced its
    columns. *)
Definition updated (source : ProductSource) (data : SavedData) : ProductSource := {|
  id := id source;
  product_id := saved_product_id data;
  supplier_id := saved_supplier_id data;
  supplier_name := saved_supplier_name data;
  grade := saved_grade data;
  country := saved_country data;
  remarks := saved_remarks data;
  supplier_company_name := supplier_company_name source
|}.


(** A string that is neither null nor empty. *)
Definition filled (a : option string) : Prop :=
  exists t, a = Some t /\ t <> EmptyString.

End ProductSources.

(** ** Arrays and numbers of the forms *)

(** [l.filter((_, i) => keep(i))], the indices counted from [i]. *)
Fixpoint filter_index {A : Type} (keep : nat -> bool) (i : nat) (l : list A) : list A :=
  match l with
  | [] => []
  | x :: rest =>
      if keep i then x :: filter_index keep (S i) rest
      else filter_index keep (S i) rest
  end.

(** [l.filter((_, i) => i !== index)]. *)
Definition without_index {A : Type} (index : nat) (l : list A) : list A :=
  filter_index (fun i => negb (Nat.eqb i index)) 0 l.

(** A JavaScript number is a binary64 float.  The falsy ones are the two
    zeros and NaN. *)
Definition number : Type := PrimFloat.float.

Definition falsy (x : number) : bool :=
  PrimFloat.eqb x 0%float || negb (PrimFloat.eqb x x).

(** [x || 0]. *)
Definition or_zero (x : number) : number :=
  if falsy x then 0%float else x.

Definition is_NaN (x : number) : bool := negb (PrimFloat.eqb x x).

(** An array index in a template string. *)
Definition decimal (n : nat) : string := NilEmpty.string_of_uint (Nat.to_uint n).

(** ** PurchaseInvoiceManager: the line items of the form *)

Module Product.
Record t : Type := {
  id : string;
  product_name : string;
  unit : string;
  current_stock : number
}.
End Product.

Module PurchaseInvoiceManager.
Section Form.

(** parseFloat, on the text of an input element. *)
Variable parseFloat : string -> number.

Record PurchaseInvoiceItem : Type := {
  product_id : string;
  product_name : string;
  unit : string;
  quantity : number;
  rate : number;
  amount : number;
  narration : string
}.

(** The line the form starts with, resetForm sets and handleAddLine adds. *)
Definition newLine : PurchaseInvoiceItem := {|
  product_id := EmptyString;
  product_name := EmptyString;
  unit := EmptyString;
  quantity := 1%float;
  rate := 0%float;
  amount := 0%float;
  narration := EmptyString
|}.

Definition resetForm : list PurchaseInvoiceItem := [newLine].

Definition handleAddLine (lineItems : list PurchaseInvoiceItem)
    : list PurchaseInvoiceItem :=
  lineItems ++ [newLine].

Definition handleRemoveLine (lineItems : list PurchaseInvoiceItem) (index : nat)
    : list PurchaseInvoiceItem :=
  if (1 <? length lineItems)%nat then without_index index lineItems else lineItems.

(** The fields the form changes through handleLineChange with the text of
    an input element.  (amount, a number, is shown read-only.) *)
Inductive field : Type :=
| field_product_id
| field_product_name
| field_unit
| field_quantity
| field_rate
| field_narration.

(** [newLines[index] = ...]: a write to a line that is not there is a
    TypeError ([None]); the handler then stops before it sets the state. *)
Definition assign (index : nat) (write : PurchaseInvoiceItem -> PurchaseInvoiceItem)
    (lineItems : list PurchaseInvoiceItem) : option (list PurchaseInvoiceItem) :=
  match lineItems !! index with
  | Some line => Some (<[index := write line]> lineItems)
  | None => None
  end.

(** The product branch: identifier, name, unit and narration of the line
    are taken from the product. *)
Definition with_product (value : string) (product : Product.t)
    (line : PurchaseInvoiceItem) : PurchaseInvoiceItem :=
  {| product_id := value;
     product_name := Product.product_name product;
     unit := Product.unit product;
     quantity := quantity line;
     rate := rate line;
     amount := amount line;
     narration := Product.product_name product |}.

(** The quantity and rate branch: the field is set, then the amount is
    recomputed. *)
Definition with_number (f : field) (x : number) (line : PurchaseInvoiceItem)
    : PurchaseInvoiceItem :=
  match f with
  | field_quantity =>
      {| product_id := product_id line;
         product_name := product_name line;
         unit := unit line;
         quantity := x;
         rate := rate line;
         amount := PrimFloat.mul x (rate line);
         narration := narration line |}
  | field_rate =>
      {| product_id := product_id line;
         product_name := product_name line;
         unit := unit line;
         quantity := quantity line;
         rate := x;
         amount := PrimFloat.mul (quantity line) x;
         narration := narration line |}
  | _ => line
  end.

(** The last branch: the field is set to the text. *)
Definition with_text (f : field) (value : string) (line : PurchaseInvoiceItem)
    : PurchaseInvoiceItem :=
  match f with
  | field_product_name =>
      {| product_id := product_id line;
         product_name := value;
         unit := unit line;
         quantity := quantity line;
         rate := rate line;
         amount := amount line;
         narration := narration line |}
  | field_unit =>
      {| product_id := product_id line;
         product_name := product_name line;
         unit := value;
         quantity := quantity line;
         rate := rate line;
         amount := amount line;
         narration := narration line |}
  | field_narration =>
      {| product_id := product_id line;
         product_name := product_name line;
         unit := unit line;
         quantity := quantity line;
         rate := rate line;
         amount := amount line;
         narration := value |}
  | _ => line
  end.

Definition handleLineChange (products : list Product.t)
    (lineItems : list PurchaseInvoiceItem) (index : nat) (f : field) (value : string)
    : option (list PurchaseInvoiceItem) :=
  match f with
  | field_product_id =>
      match List.find (fun p => String.eqb (Product.id p) value) products with
      | Some product => assign index (with_product value product) lineItems
      | None => Some lineItems
      end
  | field_quantity | field_rate =>
      assign index (with_number f (or_zero (parseFloat value))) lineItems
  | _ => assign index (with_text f value) lineItems
  end.

(** The checks of handleSubmit, up to the first alert. *)
Definition line_alert (i : nat) (item : PurchaseInvoiceItem) : option string :=
  if String.eqb (product_id item) EmptyString
  then Some ("Line " +:+ decimal (S i) +:+ ": Please select a product")
  else if PrimFloat.leb (quantity item) 0%float
  then Some ("Line " +:+ decimal (S i) +:+ ": Quantity must be greater than 0")
  else if PrimFloat.leb (rate item) 0%float
  then Some ("Line " +:+ decimal (S i) +:+ ": Rate must be greater than 0")
  else None.

Fixpoint first_alert (i : nat) (lineItems : list PurchaseInvoiceItem) : option string :=
  match lineItems with
  | [] => None
  | item :: rest =>
      match line_alert i item with
      | Some message => Some message
      | None => first_alert (S i) rest
      end
  end.

Definition validate (canManage : bool) (supplier_id : string)
    (lineItems : list PurchaseInvoiceItem) : option string :=
  if negb canManage
  then Some "You do not have permission to create purchase invoices"
  else if String.eqb supplier_id EmptyString
  then Some "Please select a supplier"
  else if (length lineItems =? 0)%nat
          || forallb (fun item => PrimFloat.eqb (amount item) 0%float) lineItems
  then Some "Please add at least one line item"
  else first_alert 0 lineItems.



(** What the user does to the line items. *)
Inductive action : Type :=
| AddLine
| RemoveLine (index : nat)
| ChangeLine (index : nat) (f : field) (value : string)
| ResetForm.

Definition step (products : list Product.t) (lineItems : list PurchaseInvoiceItem)
    (a : action) : list PurchaseInvoiceItem :=
  match a with
  | AddLine => handleAddLine lineItems
  | RemoveLine index => handleRemoveLine lineItems index
  | ChangeLine index f value =>
      match handleLineChange products lineItems index f value with
      | Some lineItems' => lineItems'
      | None => lineItems
      end
  | ResetForm => resetForm
  end.

(** The line items after a session on the form. *)
Definition session_lines (products : list Product.t) (actions : list action)
    : list PurchaseInvoiceItem :=
  fold_left (step products) actions resetForm.

(** Quantity and rate are numbers and the amount is their product. *)
Definition consistent (item : PurchaseInvoiceItem) : Prop :=
  is_NaN (quantity item) = false /\ is_NaN (rate item) = false
  /\ amount item = PrimFloat.mul (quantity item) (rate item).

End Form.
End PurchaseInvoiceManager.

(** ** SourceDocuments: the upload queue *)

Module SourceDocuments.
Section Queue.

(** A File of the browser. *)
Variable File : Type.

Record QueueItem : Type := {
  file : File;
  doc_type : string
}.

(** handleFileSelect, handleDrop and the paste handler: the files join the
    queue as Other. *)
Definition enqueue (files : list File) (prev : list QueueItem) : list QueueItem :=
  prev ++ List.map (fun f => {| file := f; doc_type := "Other" |}) files.

Definition removeFromQueue (index : nat) (prev : list QueueItem) : list QueueItem :=
  without_index index prev.

(** updateQueueItemType; a TypeError ([None]) when there is no such entry. *)
Definition updateQueueItemType (index : nat) (new_type : string)
    (prev : list QueueItem) : option (list QueueItem) :=
  match prev !! index with
  | Some item => Some (<[index := {| file := file item; doc_type := new_type |}]> prev)
  | None => None
  end.

Inductive action : Type :=
| Enqueue (files : list File)
| Remove (index : nat)
| Retype (index : nat) (new_type : string)
| Uploaded.

(** uploadAll, when every upload went through, empties the queue. *)
Definition step (queue : list QueueItem) (a : action) : list QueueItem :=
  match a with
  | Enqueue files => enqueue files queue
  | Remove index => removeFromQueue index queue
  | Retype index new_type =>
      match updateQueueItemType index new_type queue with
      | Some queue' => queue'
      | None => queue
      end
  | Uploaded => []
  end.

(** The files that joined the queue, in the order they came. *)
Definition arrived (actions : list action) : list File :=
  List.concat (List.map (fun a => match a with Enqueue files => files | _ => [] end)
                        actions).

End Queue.
End SourceDocuments.

Module FormExamples.
Import PurchaseInvoiceManager.

Definition digit_number (c : ascii) : option number :=
  match N_of_ascii c with
  | 48%N => Some 0%float | 49%N => Some 1%float | 50%N => Some 2%float
  | 51%N => Some 3%float | 52%N => Some 4%float | 53%N => Some 5%float
  | 54%N => Some 6%float | 55%N => Some 7%float | 56%N => Some 8%float
  | 57%N => Some 9%float
  | _ => None
  end.

Fixpoint digits_number (s : string) (acc : number) : number :=
  match s with
  | EmptyString => acc
  | String c rest =>
      match digit_number c with
      | Some x => digits_number rest (PrimFloat.add (PrimFloat.mul acc 10%float) x)
      | None => PrimFloat.nan
      end
  end.

(** An instance of parseFloat for examples: it agrees with parseFloat on
    strings of digits and on the empty string. *)
Definition parse_digits (s : string) : number :=
  match s with
  | EmptyString => PrimFloat.nan
  | _ => digits_number s 0%float
  end.

Definition solvent : Product.t := {|
  Product.id := "p1";
  Product.product_name := "Solvent";
  Product.unit := "kg";
  Product.current_stock := 40%float
|}.

(** Select the solvent on the first line, 2 kg at 3 each, and a note. *)
Definition order_two_kilos : list action :=
  [ChangeLine 0 field_product_id "p1";
   ChangeLine 0 field_quantity "2";
   ChangeLine 0 field_rate "3";
   AddLine;
   ChangeLine 1 field_narration "to be removed";
   RemoveLine 1].

End FormExamples.

(** ** The statements, one by one *)

Section Statements.
Context `{Schema}.

Ltac run := unfold fire, emit, read_db, write_db, raise, lift, mbind, mret,
                   plpgsql_bind, plpgsql_ret; simpl.

Lemma database_eta (d : database) :
  {| sales_invoices := sales_invoices d;
     sales_invoice_items := sales_invoice_items d;
     ledger_state := ledger_state d |} = d.
Proof. destruct d; reflexivity. Qed.

Lemma bind_run {A B : Type} (m : plpgsql A) (f : A -> plpgsql B) (s : session) :
  (m ≫= f) s
  = match m s with
    | Done a s' => f a s'
    | Raised e s' => Raised e s'
    end.
Proof. reflexivity. Qed.

Lemma fire_emit_run (during : statement) (effect : ledger -> option ledger)
    (ev : event) (s : session) :
  (fire during effect;; emit ev) s
  = match effect (ledger_state (db s)) with
    | Some l =>
        Done tt {| db := {| sales_invoices := sales_invoices (db s);
                            sales_invoice_items := sales_invoice_items (db s);
                            ledger_state := l |};
                   log := log s ++ [ev] |}
    | None => Raised (schema_violation during) s
    end.
Proof. run. destruct (effect (ledger_state (db s))); reflexivity. Qed.

(** Firing the row effects of a statement: the tables stay, the ledger
    is folded, one event per row is logged. *)
Lemma fire_rows_outcome {R : Type} (during : statement)
    (effect : R -> ledger -> option ledger) (ev : R -> event)
    (rows : list R) (s : session) :
  match for_each (fun r => fire during (effect r);; emit (ev r)) rows s with
  | Done _ s' =>
      exists l, fold_effects effect rows (ledger_state (db s)) = Some l
          /\ db s' = {| sales_invoices := sales_invoices (db s);
                        sales_invoice_items := sales_invoice_items (db s);
                        ledger_state := l |}
          /\ log s' = log s ++ List.map ev rows
  | Raised e s' =>
      fold_effects effect rows (ledger_state (db s)) = None
      /\ e = schema_violation during
      /\ exists fired, fired `prefix_of` rows
                       /\ log s' = log s ++ List.map ev fired
  end.
Proof.
  revert s; induction rows as [|r rows IH]; intros s.
  - simpl. exists (ledger_state (db s)).
    rewrite database_eta, app_nil_r. auto.
  - cbn [for_each fold_effects]. rewrite bind_run, fire_emit_run.
    destruct (effect r (ledger_state (db s))) as [l|] eqn:E.
    + match goal with |- context [for_each ?f rows ?s1] =>
        specialize (IH s1); destruct (for_each f rows s1) as [[] s'|e s'] end;
        simpl in IH.
      * destruct IH as (l' & Hf & Hd & Hl). exists l'.
        rewrite Hf, Hd, Hl, <- app_assoc. auto.
      * destruct IH as (Hf & He & fired & Hp & Hl). rewrite Hf.
        repeat split; auto. exists (r :: fired).
        split; [apply prefix_cons; exact Hp|].
        rewrite Hl, <- app_assoc. reflexivity.
    + repeat split; auto. exists [].
      split; [apply prefix_nil|]. simpl. rewrite app_nil_r. reflexivity.
Qed.

Lemma emit_rows_outcome {R : Type} (ev : R -> event) (rows : list R) (s : session) :
  for_each (fun r => emit (ev r)) rows s
  = Done tt {| db := db s; log := log s ++ List.map ev rows |}.
Proof.
  revert s; induction rows as [|r rows IH]; intros s; cbn [for_each].
  - simpl. rewrite app_nil_r. destruct s; reflexivity.
  - rewrite bind_run. unfold emit at 1. rewrite IH. simpl.
    rewrite <- app_assoc. reflexivity.
Qed.

Lemma delete_old_items_outcome (p_invoice_id : uuid) (s : session) :
  match delete_old_items p_invoice_id s with
  | Done _ s' =>
      exists l, fold_effects item_deleted (items_of p_invoice_id (db s))
                             (ledger_state (db s)) = Some l
          /\ db s' = {| sales_invoices := sales_invoices (db s);
                        sales_invoice_items := items_of_others p_invoice_id (db s);
                        ledger_state := l |}
          /\ log s' = log s ++ List.map item_delete (items_of p_invoice_id (db s))
  | Raised e s' =>
      fold_effects item_deleted (items_of p_invoice_id (db s))
                   (ledger_state (db s)) = None
      /\ e = schema_violation stmt_delete
      /\ exists fired, fired `prefix_of` items_of p_invoice_id (db s)
                       /\ log s' = log s ++ List.map item_delete fired
  end.
Proof.
  unfold delete_old_items. rewrite bind_run. unfold read_db at 1.
  rewrite bind_run. unfold write_db at 1.
  match goal with |- context [for_each ?f ?rows ?s1] =>
    pose proof (fire_rows_outcome stmt_delete item_deleted item_delete rows s1) as O;
    destruct (for_each f rows s1) as [[] s'|e s'] end; simpl in O.
  - destruct O as (l & Hf & Hd & Hl). exists l. auto.
  - exact O.
Qed.

Lemma update_header_outcome (now : timestamptz) (p_invoice_id : uuid)
    (p_invoice_updates : jsonb) (s : session) :
  match update_header now p_invoice_id p_invoice_updates s with
  | Done v s' =>
      exists table returned,
        planned_casts p_invoice_updates = inr tt
        /\ update_where (fun r => bool_decide (SalesInvoices.id r = p_invoice_id))
                     (new_version now p_invoice_updates (ledger_state (db s)))
                     (sales_invoices (db s)) = inr (table, returned)
        /\ db s' = {| sales_invoices := table;
                      sales_invoice_items := sales_invoice_items (db s);
                      ledger_state := ledger_state (db s) |}
        /\ v = head (SalesInvoices.id <$> returned)
        /\ log s' = log s ++ List.map invoice_update returned
  | Raised e s' =>
      (planned_casts p_invoice_updates = inl e
       \/ (planned_casts p_invoice_updates = inr tt
           /\ update_where (fun r => bool_decide (SalesInvoices.id r = p_invoice_id))
                 (new_version now p_invoice_updates (ledger_state (db s)))
                 (sales_invoices (db s)) = inl e))
      /\ s' = s
  end.
Proof.
  unfold update_header. rewrite bind_run. unfold read_db at 1.
  rewrite bind_run. unfold lift at 1.
  destruct (planned_casts p_invoice_updates) as [e|[]]; [auto|].
  rewrite bind_run. unfold lift at 1.
  destruct (update_where _ _ _) as [e|[table returned]]; [auto|].
  rewrite bind_run. unfold write_db at 1.
  rewrite bind_run, emit_rows_outcome. simpl.
  exists table, returned. auto.
Qed.

Lemma insert_new_items_outcome (p_invoice_id : uuid) (p_new_items : list jsonb)
    (s : session) :
  match insert_new_items p_invoice_id p_new_items s with
  | Done _ s' =>
      exists rows l,
        mapM (select_item p_invoice_id) p_new_items = inr rows
        /\ fold_effects (item_inserted (sales_invoices (db s))) rows
                        (ledger_state (db s)) = Some l
        /\ db s' = {| sales_invoices := sales_invoices (db s);
                      sales_invoice_items := sales_invoice_items (db s) ++ rows;
                      ledger_state := l |}
        /\ log s' = log s ++ List.map item_insert rows
  | Raised e s' =>
      (mapM (select_item p_invoice_id) p_new_items = inl e /\ s' = s)
      \/ exists rows,
           mapM (select_item p_invoice_id) p_new_items = inr rows
           /\ fold_effects (item_inserted (sales_invoices (db s))) rows
                           (ledger_state (db s)) = None
           /\ e = schema_violation stmt_insert
           /\ exists fired, fired `prefix_of` rows
                            /\ log s' = log s ++ List.map item_insert fired
  end.
Proof.
  unfold insert_new_items. rewrite bind_run. unfold lift at 1.
  destruct (mapM _ _) as [e|rows].
  { left. auto. }
  rewrite bind_run. unfold read_db at 1.
  rewrite bind_run. unfold write_db at 1.
  match goal with |- context [for_each ?f ?rs ?s1] =>
    pose proof (fire_rows_outcome stmt_insert
                  (item_inserted (sales_invoices (db s))) item_insert rs s1) as O;
    destruct (for_each f rs s1) as [[] s'|e s'] end; simpl in O.
  - destruct O as (l & Hf & Hd & Hl). exists rows, l. auto.
  - destruct O as (Hf & He & Hl). right. exists rows. auto.
Qed.

(** The call in closed form: the five places where it can raise, and the
    database it leaves when none does. *)
Lemma apply_invoice_update_eq (now : timestamptz) (d : database) (invoice_id : uuid)
    (header_patch : jsonb) (replacement_items : list jsonb) :
  apply_invoice_update now d invoice_id header_patch replacement_items
  = match fold_effects item_deleted (items_of invoice_id d) (ledger_state d) with
    | None => (inl (schema_violation stmt_delete), d)
    | Some l1 =>
        match planned_casts header_patch with
        | inl e => (inl e, d)
        | inr _ =>
        match update_where (fun r => bool_decide (SalesInvoices.id r = invoice_id))
                           (new_version now header_patch l1) (sales_invoices d) with
        | inl e => (inl e, d)
        | inr (table, returned) =>
            match mapM (select_item invoice_id) replacement_items with
            | inl e => (inl e, d)
            | inr rows =>
                match fold_effects (item_inserted table) rows l1 with
                | None => (inl (schema_violation stmt_insert), d)
                | Some l2 =>
                    (inr (head (SalesInvoices.id <$> returned)),
                     {| sales_invoices := table;
                        sales_invoice_items := items_of_others invoice_id d ++ rows;
                        ledger_state := l2 |})
                end
            end
        end
        end
    end.
Proof.
  unfold apply_invoice_update, transaction, update_sales_invoice_atomic.
  rewrite bind_run.
  pose proof (delete_old_items_outcome invoice_id {| db := d; log := [] |}) as O1.
  destruct (delete_old_items _ _) as [[] s1|e s1]; simpl in O1.
  2: { destruct O1 as (-> & -> & _). reflexivity. }
  destruct O1 as (l1 & -> & Hd1 & _).
  rewrite bind_run.
  pose proof (update_header_outcome now invoice_id header_patch s1) as O2.
  destruct (update_header _ _ _ _) as [v s2|e s2].
  2: { destruct O2 as ([O2|(Hp & O2)] & _); [rewrite O2; reflexivity|].
       rewrite Hp. rewrite Hd1 in O2. simpl in O2. rewrite O2. reflexivity. }
  destruct O2 as (table & returned & Hp & Hu & Hd2 & -> & _).
  rewrite Hp. rewrite Hd1 in Hu. simpl in Hu. rewrite Hu.
  rewrite bind_run.
  pose proof (insert_new_items_outcome invoice_id replacement_items s2) as O3.
  destruct (insert_new_items _ _ _) as [[] s3|e s3].
  - destruct O3 as (rows & l2 & -> & Hf & Hd3 & _).
    rewrite Hd2 in Hf. simpl in Hf. rewrite Hd1 in Hf. simpl in Hf. rewrite Hf.
    simpl. rewrite Hd3, Hd2, Hd1. reflexivity.
  - destruct O3 as [(-> & _)|(rows & -> & Hf & -> & _)]; [reflexivity|].
    rewrite Hd2 in Hf. simpl in Hf. rewrite Hd1 in Hf. simpl in Hf. rewrite Hf.
    reflexivity.
Qed.

(** *** Evaluation of expressions *)

Lemma result_bind_inr {A B : Type} (m : result A) (f : A -> result B) (b : B) :
  m ≫= f = inr b -> exists a, m = inr a /\ f a = inr b.
Proof. destruct m as [e|a]; [discriminate|]. intros E. exists a. auto. Qed.

Lemma result_bind_inl {A B : Type} (m : result A) (f : A -> result B) (e : pg_error) :
  m = inl e -> m ≫= f = inl e.
Proof. intros ->. reflexivity. Qed.

Lemma cast_inr {T : Type} (ty : sqltype) (input : string -> option T)
    (text : option string) (v : option T) :
  cast ty input text = inr v
  -> match text with
     | None => v = None
     | Some t => exists x, input t = Some x /\ v = Some x
     end.
Proof.
  unfold cast. destruct text as [t|]; [|congruence].
  destruct (input t) as [x|]; [|discriminate].
  intros [= <-]. eauto.
Qed.


Lemma cast_error {T : Type} (ty : sqltype) (input : string -> option T)
    (text : option string) (e : pg_error) :
  cast ty input text = inl e -> exists t, e = invalid_text_representation ty t.
Proof.
  unfold cast. destruct text as [t|]; [|discriminate].
  destruct (input t); [discriminate|]. intros [= <-]. eauto.
Qed.

Lemma field_text_present (patch : jsonb) (key : string) :
  patch ->> key = as_text <$> present_non_null patch key.
Proof.
  unfold jsonb_object_field_text, present_non_null.
  destruct patch; try reflexivity.
  destruct (member key members) as [[]|]; reflexivity.
Qed.

Lemma cast_patched {T : Type} (ty : sqltype) (input : string -> option T)
    (patch : jsonb) (key : string) (v prior : option T) :
  cast ty input (patch ->> key) = inr v
  -> patched_field input patch key prior (COALESCE v prior).
Proof.
  intros E. apply cast_inr in E. unfold patched_field.
  rewrite field_text_present in E.
  destruct (present_non_null patch key) as [j|]; simpl in E.
  - destruct E as (x & Hx & ->). exists x. auto.
  - subst v. reflexivity.
Qed.

Lemma text_patched (patch : jsonb) (key : string) (prior : option string) :
  patched_field Some patch key prior (COALESCE (patch ->> key) prior).
Proof.
  unfold patched_field. rewrite field_text_present.
  destruct (present_non_null patch key) as [j|]; simpl; eauto.
Qed.

Lemma COALESCE_kept {T : Type} (v prior : option T) :
  is_Some prior -> is_Some (COALESCE v prior).
Proof. destruct v; simpl; eauto. Qed.


(** The eight casts of a SET list that succeeded. *)
Lemma set_clause_inr (now : timestamptz) (patch : jsonb) (r r' : SalesInvoices.row) :
  set_clause now patch r = inr r'
  -> exists v1 v2 v3 v4 v5 v6 v7 v8,
       cast ty_date date_in (patch ->> "invoice_date") = inr v1
       /\ cast ty_date date_in (patch ->> "due_date") = inr v2
       /\ cast ty_uuid uuid_in (patch ->> "customer_id") = inr v3
       /\ cast ty_numeric numeric_in (patch ->> "subtotal") = inr v4
       /\ cast ty_numeric numeric_in (patch ->> "tax_amount") = inr v5
       /\ cast ty_numeric numeric_in (patch ->> "total_amount") = inr v6
       /\ cast ty_numeric numeric_in (patch ->> "discount_amount") = inr v7
       /\ cast ty_integer int4_in (patch ->> "payment_terms_days") = inr v8
       /\ r' = {|
            SalesInvoices.id := SalesInvoices.id r;
            SalesInvoices.invoice_date := COALESCE v1 (SalesInvoices.invoice_date r);
            SalesInvoices.due_date := COALESCE v2 (SalesInvoices.due_date r);
            SalesInvoices.customer_id := COALESCE v3 (SalesInvoices.customer_id r);
            SalesInvoices.subtotal := COALESCE v4 (SalesInvoices.subtotal r);
            SalesInvoices.tax_amount := COALESCE v5 (SalesInvoices.tax_amount r);
            SalesInvoices.total_amount := COALESCE v6 (SalesInvoices.total_amount r);
            SalesInvoices.discount_amount :=
              COALESCE v7 (SalesInvoices.discount_amount r);
            SalesInvoices.po_number :=
              COALESCE (patch ->> "po_number") (SalesInvoices.po_number r);
            SalesInvoices.payment_terms_days :=
              COALESCE v8 (SalesInvoices.payment_terms_days r);
            SalesInvoices.notes :=
              COALESCE (patch ->> "notes") (SalesInvoices.notes r);
            SalesInvoices.payment_terms :=
              COALESCE (patch ->> "payment_terms") (SalesInvoices.payment_terms r);
            SalesInvoices.updated_at := Some now;
            SalesInvoices.other_columns := SalesInvoices.other_columns r |}.
Proof.
  unfold set_clause. intros E.
  repeat (apply result_bind_inr in E; destruct E as (? & ? & E)).
  injection E as <-. do 8 eexists. repeat (split; [eassumption|]). reflexivity.
Qed.

Lemma set_clause_patched (now : timestamptz) (patch : jsonb)
    (r r' : SalesInvoices.row) :
  set_clause now patch r = inr r'
  -> header_patched now patch r r' /\ never_cleared r r'
     /\ SalesInvoices.id r' = SalesInvoices.id r
     /\ SalesInvoices.other_columns r' = SalesInvoices.other_columns r.
Proof.
  intros E. apply set_clause_inr in E.
  destruct E as (v1 & v2 & v3 & v4 & v5 & v6 & v7 & v8
                 & E1 & E2 & E3 & E4 & E5 & E6 & E7 & E8 & ->).
  repeat split; simpl;
    solve [ eapply cast_patched; eassumption
          | apply text_patched
          | apply COALESCE_kept ].
Qed.


Lemma new_version_inr (now : timestamptz) (patch : jsonb) (l : ledger)
    (r r' : SalesInvoices.row) :
  new_version now patch l r = inr r'
  -> set_clause now patch r = inr r' /\ invoice_constraints l r' = true.
Proof.
  unfold new_version. intros E.
  apply result_bind_inr in E. destruct E as (r1 & E1 & E2).
  unfold checked in E2. destruct (invoice_constraints l r1) eqn:C; [|discriminate].
  injection E2 as <-. auto.
Qed.

(** *** The UPDATE's row loop *)

Lemma update_where_inr (cond : SalesInvoices.row -> bool)
    (set : SalesInvoices.row -> result SalesInvoices.row)
    (rows table returned : list SalesInvoices.row) :
  update_where cond set rows = inr (table, returned)
  -> Forall2 (fun r r' => if cond r then set r = inr r' else r' = r) rows table
     /\ Forall (fun r' => exists r, In r rows /\ cond r = true /\ set r = inr r')
               returned
     /\ ((exists r, In r rows /\ cond r = true) -> returned <> []).
Proof.
  revert table returned; induction rows as [|r rows IH]; intros table returned E.
  - injection E as <- <-. repeat split; [constructor|constructor|].
    intros (r & [] & _).
  - cbn [update_where] in E. destruct (cond r) eqn:C.
    + apply result_bind_inr in E. destruct E as (r' & Hset & E).
      apply result_bind_inr in E. destruct E as ([t u] & Hrec & E).
      injection E as <- <-. destruct (IH _ _ Hrec) as (F2 & F & _).
      repeat split.
      * constructor; [rewrite C; exact Hset|exact F2].
      * constructor; [exists r; simpl; auto|].
        eapply Forall_impl; [exact F|]. intros x (y & ? & ? & ?).
        exists y. simpl. auto.
      * discriminate.
    + apply result_bind_inr in E. destruct E as ([t u] & Hrec & E).
      injection E as <- <-. destruct (IH _ _ Hrec) as (F2 & F & N).
      repeat split.
      * constructor; [rewrite C; reflexivity|exact F2].
      * eapply Forall_impl; [exact F|]. intros x (y & ? & ? & ?).
        exists y. simpl. auto.
      * intros (y & [<-|Hy] & Cy); [congruence|]. apply N. eauto.
Qed.

Lemma update_where_none (cond : SalesInvoices.row -> bool)
    (set : SalesInvoices.row -> result SalesInvoices.row)
    (rows : list SalesInvoices.row) :
  (forall r, In r rows -> cond r = false)
  -> update_where cond set rows = inr (rows, []).
Proof.
  induction rows as [|r rows IH]; intros N; [reflexivity|].
  cbn [update_where]. rewrite (N r) by (left; reflexivity).
  rewrite IH by (intros; apply N; right; assumption). reflexivity.
Qed.


(** RETURNING id INTO v_result yields the identifier asked for, or NULL
    when no row carries it. *)
Lemma returning_id (now : timestamptz) (p_invoice_id : uuid) (patch : jsonb)
    (l : ledger) (rows table returned : list SalesInvoices.row) :
  update_where (fun r => bool_decide (SalesInvoices.id r = p_invoice_id))
               (new_version now patch l) rows = inr (table, returned)
  -> ((exists r, In r rows /\ SalesInvoices.id r = p_invoice_id)
      -> head (SalesInvoices.id <$> returned) = Some p_invoice_id)
     /\ ((forall r, In r rows -> SalesInvoices.id r <> p_invoice_id)
         -> returned = [] /\ table = rows).
Proof.
  intros E. split.
  - intros (r & Hin & Hid).
    apply update_where_inr in E. destruct E as (_ & F & N).
    destruct returned as [|r' returned].
    + exfalso. apply N; [|reflexivity]. exists r. split; [assumption|].
      apply bool_decide_eq_true. assumption.
    + simpl. inversion F as [|? ? (r0 & _ & C & S) _]; subst.
      apply bool_decide_eq_true in C. apply new_version_inr in S.
      destruct S as (S & _). apply set_clause_patched in S.
      destruct S as (_ & _ & -> & _). rewrite C. reflexivity.
  - intros N. rewrite update_where_none in E.
    + injection E as <- <-. auto.
    + intros r Hin. apply bool_decide_eq_false. auto.
Qed.

(** *** The INSERT's row source *)

Lemma mapM_inr {A B : Type} (f : A -> result B) (l : list A) (k : list B) :
  mapM f l = inr k -> Forall2 (fun x y => f x = inr y) l k.
Proof.
  revert k; induction l as [|x l IH]; intros k E.
  - injection E as <-. constructor.
  - cbn [mapM] in E. apply result_bind_inr in E. destruct E as (y & Hy & E).
    apply result_bind_inr in E. destruct E as (k' & Hk & E).
    injection E as <-. constructor; auto.
Qed.

Lemma mapM_inl {A B : Type} (f : A -> result B) (l : list A) (x : A) (e : pg_error) :
  In x l -> f x = inl e
  -> exists x' e', In x' l /\ f x' = inl e' /\ mapM f l = inl e'.
Proof.
  induction l as [|y l IH]; intros Hin E; [destruct Hin|].
  destruct Hin as [<-|Hin].
  - exists y, e. cbn [mapM]. rewrite E. simpl. auto.
  - cbn [mapM]. destruct (f y) as [ey|b] eqn:Ey.
    + exists y, ey. simpl. auto.
    + destruct (IH Hin E) as (x' & e' & Hx' & Ex' & ->).
      exists x', e'. simpl. auto.
Qed.

Lemma mapM_fmap {A B C : Type} (f : B -> result C) (g : A -> B) (l : list A) :
  mapM f (List.map g l) = mapM (fun x => f (g x)) l.
Proof.
  induction l as [|x l IH]; [reflexivity|].
  cbn [mapM List.map]. rewrite IH. reflexivity.
Qed.

Lemma mapM_same {A B : Type} (f g : A -> result B) (l : list A) :
  (forall x, In x l -> f x = g x) -> mapM f l = mapM g l.
Proof.
  induction l as [|x l IH]; intros E; [reflexivity|].
  cbn [mapM]. rewrite (E x) by (left; reflexivity).
  rewrite IH by (intros; apply E; right; assumption). reflexivity.
Qed.

(** The eight casts of a SELECT list that succeeded. *)
Lemma select_item_inr (p_invoice_id : uuid) (item : jsonb)
    (r : SalesInvoiceItems.row) :
  select_item p_invoice_id item = inr r
  -> exists v1 v2 v3 v4 v5 v6 v7 v8,
       cast ty_uuid uuid_in (item ->> "product_id") = inr v1
       /\ cast ty_uuid uuid_in (item ->> "batch_id") = inr v2
       /\ cast ty_numeric numeric_in (item ->> "quantity") = inr v3
       /\ cast ty_numeric numeric_in (item ->> "unit_price") = inr v4
       /\ cast ty_numeric numeric_in (item ->> "tax_rate") = inr v5
       /\ cast ty_numeric numeric_in (item ->> "total_amount") = inr v6
       /\ cast ty_uuid uuid_in
            (NULLIF (item ->> "delivery_challan_item_id") EmptyString) = inr v7
       /\ cast ty_numeric numeric_in (item ->> "max_quantity") = inr v8
       /\ r = {| SalesInvoiceItems.invoice_id := p_invoice_id;
                 SalesInvoiceItems.product_id := v1;
                 SalesInvoiceItems.batch_id := v2;
                 SalesInvoiceItems.quantity := v3;
                 SalesInvoiceItems.unit_price := v4;
                 SalesInvoiceItems.tax_rate := v5;
                 SalesInvoiceItems.total_amount := v6;
                 SalesInvoiceItems.delivery_challan_item_id := v7;
                 SalesInvoiceItems.max_quantity := v8 |}.
Proof.
  unfold select_item. intros E.
  repeat (apply result_bind_inr in E; destruct E as (? & ? & E)).
  injection E as <-. do 8 eexists. repeat (split; [eassumption|]). reflexivity.
Qed.

Lemma select_item_error (p_invoice_id : uuid) (item : jsonb) (e : pg_error) :
  select_item p_invoice_id item = inl e
  -> exists ty t, e = invalid_text_representation ty t.
Proof.
  unfold select_item. intros E.
  repeat match type of E with
         | (?m ≫= _) = inl _ =>
             let C := fresh "C" in
             destruct m eqn:C;
             [apply cast_error in C; destruct C as (t & ->);
              injection E as <-; eauto|]; simpl in E
         end.
  discriminate.
Qed.

Lemma selected_rows_bound (p_invoice_id : uuid) (items : list jsonb)
    (rows : list SalesInvoiceItems.row) :
  mapM (select_item p_invoice_id) items = inr rows
  -> Forall (fun r => SalesInvoiceItems.invoice_id r = p_invoice_id) rows.
Proof.
  intros E. apply mapM_inr in E.
  induction E as [|item r items rows Hs _ IH]; constructor; [|exact IH].
  apply select_item_inr in Hs.
  destruct Hs as (? & ? & ? & ? & ? & ? & ? & ? & _ & _ & _ & _ & _ & _ & _ & _ & ->).
  reflexivity.
Qed.

(** *** Filters on the item table *)

Lemma filter_bound_all (i : uuid) (rows : list SalesInvoiceItems.row) :
  Forall (fun r => SalesInvoiceItems.invoice_id r = i) rows
  -> filter (fun r => SalesInvoiceItems.invoice_id r = i) rows = rows
     /\ filter (fun r => SalesInvoiceItems.invoice_id r <> i) rows = [].
Proof.
  induction 1 as [|r rows Hr _ [IH1 IH2]]; [auto|].
  rewrite !filter_cons, IH1, IH2.
  rewrite decide_True by assumption. rewrite decide_False by tauto. auto.
Qed.

Lemma filter_others_twice (i : uuid) (rows : list SalesInvoiceItems.row) :
  filter (fun r => SalesInvoiceItems.invoice_id r <> i)
         (filter (fun r => SalesInvoiceItems.invoice_id r <> i) rows)
  = filter (fun r => SalesInvoiceItems.invoice_id r <> i) rows
  /\ filter (fun r => SalesInvoiceItems.invoice_id r = i)
            (filter (fun r => SalesInvoiceItems.invoice_id r <> i) rows) = [].
Proof.
  induction rows as [|r rows [IH1 IH2]]; [auto|].
  rewrite filter_cons. destruct (decide (SalesInvoiceItems.invoice_id r <> i)) as [N|N].
  - rewrite !filter_cons, IH1, IH2. rewrite decide_True by assumption.
    rewrite decide_False by assumption. auto.
  - auto.
Qed.

(** *** Casts that fail *)


Lemma input_accepted (ty : sqltype) (text : string) :
  input_ok ty text = true
  -> match ty with
     | ty_date => is_Some (date_in text)
     | ty_numeric => is_Some (numeric_in text)
     | ty_integer => is_Some (int4_in text)
     | ty_uuid => is_Some (uuid_in text)
     end.
Proof. destruct ty; simpl; intros E; apply bool_decide_eq_true in E; exact E. Qed.




Lemma filter_other_invoice (i other : uuid) (rows : list SalesInvoiceItems.row) :
  other <> i
  -> filter (fun r => SalesInvoiceItems.invoice_id r = other)
            (filter (fun r => SalesInvoiceItems.invoice_id r <> i) rows)
     = filter (fun r => SalesInvoiceItems.invoice_id r = other) rows.
Proof.
  intros N. induction rows as [|r rows IH]; [reflexivity|].
  rewrite !filter_cons.
  destruct (decide (SalesInvoiceItems.invoice_id r = other)) as [Y|Y].
  - rewrite decide_True by congruence. rewrite filter_cons.
    rewrite decide_True by assumption. rewrite IH. reflexivity.
  - destruct (decide (SalesInvoiceItems.invoice_id r <> i)); [|exact IH].
    rewrite filter_cons. rewrite decide_False by assumption. exact IH.
Qed.

(** *** Members of a patch or item that are not read *)

Lemma member_kept (keep : string -> bool) (key : string)
    (members : list (string * jsonb)) :
  keep key = true
  -> member key (List.filter (fun kv => keep (fst kv)) members) = member key members.
Proof.
  intros K. induction members as [|[k v] members IH]; [reflexivity|].
  simpl. destruct (keep k) eqn:Kk; simpl.
  - rewrite IH. reflexivity.
  - destruct (String.eqb_spec k key) as [->|_]; [congruence|exact IH].
Qed.

Lemma field_text_kept (keep : string -> bool) (key : string) (patch : jsonb) :
  keep key = true -> restrict_patch keep patch ->> key = patch ->> key.
Proof.
  intros K. destruct patch; try reflexivity.
  simpl. rewrite member_kept by assumption. reflexivity.
Qed.

Lemma field_text_without (key key' : string) (item : jsonb) :
  without key item ->> key'
  = if String.eqb key' key then None else item ->> key'.
Proof.
  destruct item; simpl; try (destruct (String.eqb key' key); reflexivity).
  destruct (String.eqb_spec key' key) as [->|N].
  - assert (member key (List.filter (fun kv => negb (String.eqb (fst kv) key))
                                    members) = None) as ->; [|reflexivity].
    induction members as [|[k v] members IH]; [reflexivity|].
    simpl. destruct (String.eqb_spec k key) as [->|Nk]; simpl; [exact IH|].
    destruct (String.eqb_spec k key); [contradiction|exact IH].
  - rewrite (member_kept (fun k => negb (String.eqb k key)) key' members);
      [reflexivity|].
    apply negb_true_iff. apply String.eqb_neq. exact N.
Qed.

Lemma set_clause_restricted (keep : string -> bool) (now : timestamptz)
    (patch : jsonb) (r : SalesInvoices.row) :
  (forall key, In key updatable_fields -> keep key = true)
  -> set_clause now (restrict_patch keep patch) r = set_clause now patch r.
Proof.
  intros K. unfold set_clause.
  rewrite !field_text_kept by (apply K; unfold updatable_fields; simpl; tauto).
  reflexivity.
Qed.

Lemma select_item_left_out (p_invoice_id : uuid) (item : jsonb) :
  select_item p_invoice_id (empty_reference_left_out item)
  = select_item p_invoice_id item.
Proof.
  unfold empty_reference_left_out.
  destruct (item ->> "delivery_challan_item_id") as [s|] eqn:E; [|reflexivity].
  destruct (String.eqb_spec s EmptyString) as [->|N]; [|reflexivity].
  unfold select_item. rewrite !field_text_without, E. reflexivity.
Qed.

Lemma update_where_same (cond : SalesInvoices.row -> bool)
    (set set' : SalesInvoices.row -> result SalesInvoices.row)
    (rows : list SalesInvoices.row) :
  (forall r, set r = set' r)
  -> update_where cond set rows = update_where cond set' rows.
Proof.
  intros E. induction rows as [|r rows IH]; [reflexivity|].
  cbn [update_where]. rewrite IH, E. reflexivity.
Qed.

(** *** What a call that succeeded has stored *)

Lemma replacement_rows (now : timestamptz) (d : database) (invoice_id : uuid)
    (header_patch : jsonb) (replacement_items : list jsonb)
    (v : option uuid) (d' : database) :
  apply_invoice_update now d invoice_id header_patch replacement_items = (inr v, d')
  -> Forall2 (fun item r => select_item invoice_id item = inr r)
             replacement_items (items_of invoice_id d').
Proof.
  rewrite apply_invoice_update_eq.
  destruct (fold_effects item_deleted _ _) as [l|]; [|discriminate].
  destruct (planned_casts _) as [?|[]]; [discriminate|].
  destruct (update_where _ _ _) as [e|[table returned]]; [discriminate|].
  destruct (mapM _ _) as [e|rows] eqn:M; [discriminate|].
  destruct (fold_effects (item_inserted _) _ _); [|discriminate].
  intros [= _ <-]. unfold items_of. simpl.
  rewrite filter_app. unfold items_of_others.
  destruct (filter_others_twice invoice_id (sales_invoice_items d)) as (_ & ->).
  destruct (filter_bound_all invoice_id rows (selected_rows_bound _ _ _ M))
    as (-> & _).
  simpl. apply mapM_inr in M. exact M.
Qed.


(** *** The order of the row events *)


(** The rows RETURNING yields are the rows of the new table that carry
    the identifier. *)
Lemma returned_rows (now : timestamptz) (p_invoice_id : uuid) (patch : jsonb)
    (l : ledger) (rows table returned : list SalesInvoices.row) :
  update_where (fun r => bool_decide (SalesInvoices.id r = p_invoice_id))
               (new_version now patch l) rows = inr (table, returned)
  -> returned = filter (fun r => SalesInvoices.id r = p_invoice_id) table.
Proof.
  revert table returned; induction rows as [|r rows IH]; intros table returned E.
  - injection E as <- <-. reflexivity.
  - cbn [update_where] in E.
    destruct (bool_decide (SalesInvoices.id r = p_invoice_id)) eqn:C.
    + apply result_bind_inr in E. destruct E as (r' & Hset & E).
      apply result_bind_inr in E. destruct E as ([t u] & Hrec & E).
      injection E as <- <-. apply bool_decide_eq_true in C.
      apply new_version_inr in Hset. destruct Hset as (Hset & _).
      apply set_clause_patched in Hset. destruct Hset as (_ & _ & Hid & _).
      rewrite filter_cons, decide_True by congruence.
      f_equal. apply IH. exact Hrec.
    + apply result_bind_inr in E. destruct E as ([t u] & Hrec & E).
      injection E as <- <-. apply bool_decide_eq_false in C.
      rewrite filter_cons, decide_False by assumption.
      apply IH. exact Hrec.
Qed.

(** The row events of an execution, completed or not: deletions of the
    invoice's old items in table order, all of them before anything else
    happens; then the updates of the header rows; then insertions of the
    replacement rows in their order. *)
Lemma statement_order (now : timestamptz) (d : database) (invoice_id : uuid)
    (header_patch : jsonb) (replacement_items : list jsonb) :
  exists deleted updated inserted,
    trace (update_sales_invoice_atomic now invoice_id header_patch replacement_items) d
    = List.map item_delete deleted ++ List.map invoice_update updated
      ++ List.map item_insert inserted
    /\ deleted `prefix_of` items_of invoice_id d
    /\ (updated <> [] \/ inserted <> [] -> deleted = items_of invoice_id d)
    /\ Forall (fun r => SalesInvoices.id r = invoice_id) updated
    /\ (forall rows, mapM (select_item invoice_id) replacement_items = inr rows
                     -> inserted `prefix_of` rows)
    /\ (inserted <> []
        -> exists rows, mapM (select_item invoice_id) replacement_items = inr rows).
Proof.
  unfold trace, update_sales_invoice_atomic. rewrite bind_run.
  pose proof (delete_old_items_outcome invoice_id {| db := d; log := [] |}) as O1.
  destruct (delete_old_items _ _) as [[] s1|e s1]; simpl in O1.
  2: { destruct O1 as (_ & _ & fired & Hp & ->). exists fired, [], []. simpl.
       rewrite app_nil_r. repeat split; auto.
       - intros [N|N]; contradiction.
       - intros rows _. apply prefix_nil.
       - intros N; contradiction. }
  destruct O1 as (l1 & _ & Hd1 & L1). rewrite bind_run.
  pose proof (update_header_outcome now invoice_id header_patch s1) as O2.
  destruct (update_header _ _ _ _) as [v s2|e s2].
  2: { destruct O2 as (_ & ->). rewrite L1.
       exists (items_of invoice_id d), [], []. simpl.
       rewrite app_nil_r. repeat split; auto.
       - intros rows _. apply prefix_nil.
       - intros N; contradiction. }
  destruct O2 as (table & returned & _ & U & _ & _ & L2). rewrite bind_run.
  assert (Forall (fun r => SalesInvoices.id r = invoice_id) returned) as Hret.
  { apply returned_rows in U. rewrite U. apply Forall_forall.
    intros r Hr. apply list_elem_of_filter in Hr. tauto. }
  pose proof (insert_new_items_outcome invoice_id replacement_items s2) as O3.
  destruct (insert_new_items _ _ _) as [[] s3|e s3].
  - destruct O3 as (rows & l2 & M & _ & _ & L3). simpl.
    exists (items_of invoice_id d), returned, rows.
    rewrite L3, L2, L1, <- app_assoc. repeat split; auto.
    + intros rows' M'. rewrite M in M'. injection M' as <-. reflexivity.
    + intros _. exists rows. exact M.
  - destruct O3 as [(M & ->)|(rows & M & _ & _ & fired & Hp & L3)].
    + exists (items_of invoice_id d), returned, []. simpl.
      rewrite L2, L1, app_nil_r. repeat split; auto.
      * intros rows _. apply prefix_nil.
      * intros N; contradiction.
    + exists (items_of invoice_id d), returned, fired.
      rewrite L3, L2, L1, <- app_assoc. repeat split; auto.
      * intros rows' M'. rewrite M in M'. injection M' as <-. exact Hp.
      * intros _. exists rows. exact M.
Qed.

(** The row events of a call that succeeds, read off the database it
    leaves: the deletions of all the old items, the updates of the invoice's
    rows, the insertions of the items the invoice has afterwards. *)
Lemma successful_trace (now : timestamptz) (d : database) (invoice_id : uuid)
    (header_patch : jsonb) (replacement_items : list jsonb)
    (v : option uuid) (d' : database) :
  apply_invoice_update now d invoice_id header_patch replacement_items = (inr v, d')
  -> trace (update_sales_invoice_atomic now invoice_id header_patch replacement_items) d
     = List.map item_delete (items_of invoice_id d)
       ++ List.map invoice_update
            (filter (fun r => SalesInvoices.id r = invoice_id) (sales_invoices d'))
       ++ List.map item_insert (items_of invoice_id d').
Proof.
  unfold apply_invoice_update, transaction, trace, update_sales_invoice_atomic.
  rewrite bind_run.
  pose proof (delete_old_items_outcome invoice_id {| db := d; log := [] |}) as O1.
  destruct (delete_old_items _ _) as [[] s1|e s1]; simpl in O1;
    [|intros E; discriminate E].
  destruct O1 as (l1 & _ & Hd1 & L1). rewrite bind_run.
  pose proof (update_header_outcome now invoice_id header_patch s1) as O2.
  destruct (update_header _ _ _ _) as [v0 s2|e s2]; [|intros E; discriminate E].
  destruct O2 as (table & returned & _ & U & Hd2 & _ & L2). rewrite bind_run.
  pose proof (insert_new_items_outcome invoice_id replacement_items s2) as O3.
  destruct (insert_new_items _ _ _) as [[] s3|e s3]; [|intros E; discriminate E].
  destruct O3 as (rows & l2 & M & _ & Hd3 & L3).
  intros [= _ <-]. unfold mret, plpgsql_ret.
  rewrite L3, L2, L1, Hd3, Hd2, Hd1. simpl.
  apply returned_rows in U. rewrite <- U, <- app_assoc.
  do 3 f_equal. unfold items_of at 1. simpl. rewrite filter_app.
  unfold items_of_others.
  destruct (filter_others_twice invoice_id (sales_invoice_items d)) as (_ & ->).
  destruct (filter_bound_all invoice_id rows (selected_rows_bound _ _ _ M))
    as (-> & _).
  reflexivity.
Qed.

(** In a log of deletions, then updates, then insertions, every deletion
    comes before every insertion. *)
Lemma deletions_first (deleted inserted : list SalesInvoiceItems.row)
    (updated : list SalesInvoices.row) (i j : nat) (r r' : SalesInvoiceItems.row) :
  (List.map item_delete deleted ++ List.map invoice_update updated
   ++ List.map item_insert inserted) !! i = Some (item_insert r)
  -> (List.map item_delete deleted ++ List.map invoice_update updated
      ++ List.map item_insert inserted) !! j = Some (item_delete r')
  -> j < i.
Proof.
  intros Hi Hj.
  apply lookup_app_Some in Hi. destruct Hi as [Hi|(Hi & _)].
  { apply list_elem_of_lookup_2, list_elem_of_In, in_map_iff in Hi.
    destruct Hi as (x & Hx & _). discriminate Hx. }
  apply lookup_app_Some in Hj. destruct Hj as [Hj|(_ & Hj)].
  { apply lookup_lt_Some in Hj. lia. }
  apply list_elem_of_lookup_2, list_elem_of_In, in_app_or in Hj.
  destruct Hj as [Hj|Hj]; apply in_map_iff in Hj;
    destruct Hj as (x & Hx & _); discriminate Hx.
Qed.

(** *** Patches that coerce *)

Lemma cast_succeeds {T : Type} (ty : sqltype) (input : string -> option T)
    (text : option string) :
  (forall t, text = Some t -> is_Some (input t))
  -> exists v, cast ty input text = inr v.
Proof.
  intros Ok. unfold cast. destruct text as [t|]; [|eauto].
  destruct (Ok t eq_refl) as (x & ->). eauto.
Qed.

Lemma set_clause_succeeds (now : timestamptz) (patch : jsonb) (r : SalesInvoices.row) :
  (forall key ty text,
     In (key, ty) header_casts -> patch ->> key = Some text -> input_ok ty text = true)
  -> exists r', set_clause now patch r = inr r'.
Proof.
  intros Ok. unfold set_clause.
  repeat match goal with
         | |- exists r', (cast ?ty ?inp (patch ->> ?key) ≫= _) = inr r' =>
             let C := fresh "C" in
             destruct (cast_succeeds ty inp (patch ->> key)) as (? & C);
             [ intros t Ht;
               apply (input_accepted ty), (Ok key ty t); [|exact Ht];
               unfold header_casts; simpl; tauto
             | rewrite C; simpl ]
         end.
  eexists. reflexivity.
Qed.

Lemma update_where_succeeds (cond : SalesInvoices.row -> bool)
    (set : SalesInvoices.row -> result SalesInvoices.row)
    (rows : list SalesInvoices.row) :
  (forall r, exists r', set r = inr r')
  -> exists table returned, update_where cond set rows = inr (table, returned).
Proof.
  intros Ok. induction rows as [|r rows (table & returned & IH)].
  - eexists _, _. reflexivity.
  - cbn [update_where]. rewrite IH. destruct (Ok r) as (r' & ->).
    destruct (cond r); eexists _, _; reflexivity.
Qed.

(** *** The casts evaluated when the UPDATE is planned *)

Lemma planned_casts_same_fields (patch patch' : jsonb) :
  (forall key, In key updatable_fields -> patch' ->> key = patch ->> key)
  -> planned_casts patch' = planned_casts patch.
Proof.
  intros E. unfold planned_casts.
  rewrite !E by (unfold updatable_fields; simpl; tauto).
  reflexivity.
Qed.


Lemma planned_casts_succeeds (patch : jsonb) :
  (forall key ty text,
     In (key, ty) header_casts -> patch ->> key = Some text -> input_ok ty text = true)
  -> planned_casts patch = inr tt.
Proof.
  intros Ok. unfold planned_casts.
  repeat match goal with
         | |- (cast ?ty ?inp (patch ->> ?key) ≫= _) = inr tt =>
             let C := fresh "C" in
             destruct (cast_succeeds ty inp (patch ->> key)) as (? & C);
             [ intros t Ht;
               apply (input_accepted ty), (Ok key ty t); [|exact Ht];
               unfold header_casts; simpl; tauto
             | rewrite C; simpl ]
         end.
  reflexivity.
Qed.


End Statements.

(** ** The claims *)

Section Claims.
Context `{Schema}.

Implicit Types (now : timestamptz) (d : database) (invoice_id : uuid)
               (header_patch : jsonb) (replacement_items : list jsonb).



(** C3: on a call that succeeds, each row of the invoice has each of the
    eleven header fields set to the coerced patch value when the key is
    present with a non-null value and left as it was when the key is absent
    or null, so that no field holding a value is cleared, and updated_at
    set to the current time, whatever the patch; the rows of other
    invoices are as before. *)
Theorem header_patch_semantics
    now d invoice_id header_patch replacement_items v d' :
  apply_invoice_update now d invoice_id header_patch replacement_items = (inr v, d')
  -> Forall2 (fun r r' =>
                if decide (SalesInvoices.id r = invoice_id)
                then header_patched now header_patch r r' /\ never_cleared r r'
                else r' = r)
             (sales_invoices d) (sales_invoices d').
Proof.
  rewrite apply_invoice_update_eq.
  destruct (fold_effects item_deleted _ _) as [l|]; [|discriminate].
  destruct (planned_casts _) as [?|[]]; [discriminate|].
  destruct (update_where _ _ _) as [e|[table returned]] eqn:U; [discriminate|].
  destruct (mapM _ _) as [e|rows]; [discriminate|].
  destruct (fold_effects (item_inserted _) _ _); [|discriminate].
  intros [= _ <-]. simpl.
  apply update_where_inr in U. destruct U as (F & _).
  eapply Forall2_impl; [exact F|]. intros r r' Hr. simpl in Hr.
  destruct (decide (SalesInvoices.id r = invoice_id)) as [Y|N].
  - rewrite bool_decide_eq_true_2 in Hr by assumption.
    apply new_version_inr in Hr. destruct Hr as (Hr & _).
    apply set_clause_patched in Hr. tauto.
  - rewrite bool_decide_eq_false_2 in Hr by assumption. exact Hr.
Qed.

(** C4: on a call that succeeds, the line items of the invoice are
    exactly the replacement items, coerced, in their order: as many as
    were supplied (none for an empty sequence), however many the invoice
    had before, and none of the prior ones is left. *)
Theorem items_fully_replaced
    now d invoice_id header_patch replacement_items v d' :
  apply_invoice_update now d invoice_id header_patch replacement_items = (inr v, d')
  -> Forall2 (fun item r => select_item invoice_id item = inr r)
             replacement_items (items_of invoice_id d')
     /\ length (items_of invoice_id d') = length replacement_items.
Proof.
  intros E. apply replacement_rows in E. split; [exact E|].
  symmetry. eapply Forall2_length. exact E.
Qed.

(** C6: a fulfillment-line reference supplied as the empty string is
    treated as absent: the call does what it does with the member left
    out, so the empty string raises no coercion error, and on a call that
    succeeds the stored reference is NULL; a non-empty value is stored as
    the uuid it coerces to. *)
Theorem empty_reference_is_null
    now d invoice_id header_patch replacement_items :
  apply_invoice_update now d invoice_id header_patch replacement_items
  = apply_invoice_update now d invoice_id header_patch
      (List.map empty_reference_left_out replacement_items)
  /\ forall v d',
       apply_invoice_update now d invoice_id header_patch replacement_items
       = (inr v, d')
       -> Forall2 stored_reference replacement_items (items_of invoice_id d').
Proof.
  split.
  - rewrite !apply_invoice_update_eq, mapM_fmap.
    rewrite (mapM_same (fun x => select_item invoice_id (empty_reference_left_out x))
                       (select_item invoice_id))
      by (intros; apply select_item_left_out).
    reflexivity.
  - intros v d' E. apply replacement_rows in E.
    eapply Forall2_impl; [exact E|]. intros item r S. simpl in S.
    apply select_item_inr in S.
    destruct S as (v1 & v2 & v3 & v4 & v5 & v6 & v7 & v8
                   & _ & _ & _ & _ & _ & _ & C & _ & ->).
    unfold stored_reference. simpl.
    destruct (item ->> "delivery_challan_item_id") as [t|]; simpl in C.
    + destruct (String.eqb t EmptyString).
      * injection C as <-. reflexivity.
      * apply (cast_inr _ _ (Some t)) in C. destruct C as (u & Hu & ->). eauto.
    + injection C as <-. reflexivity.
Qed.


(** C8: a batch reference supplied as the empty string is cast to uuid as
    it is and the cast fails: the call aborts, and the error of the
    INSERT's row source is a coercion error.  The stored batch reference
    is NULL only when the member is absent or null. *)
Theorem empty_batch_reference_is_rejected
    now d invoice_id header_patch replacement_items :
  (forall item,
     In item replacement_items -> item ->> "batch_id" = Some EmptyString
     -> aborted (apply_invoice_update now d invoice_id header_patch
                                      replacement_items) d
        /\ (exists t, select_item invoice_id item
                      = inl (invalid_text_representation ty_uuid t))
        /\ (exists ty t, mapM (select_item invoice_id) replacement_items
                         = inl (invalid_text_representation ty t)))
  /\ (forall item r,
        select_item invoice_id item = inr r
        -> (SalesInvoiceItems.batch_id r = None
            <-> present_non_null item "batch_id" = None)).
Proof.
  split.
  - intros item Hin Hb.
    assert (exists t, select_item invoice_id item
                      = inl (invalid_text_representation ty_uuid t)) as (t & St).
    { unfold select_item. rewrite Hb.
      destruct (cast ty_uuid uuid_in (item ->> "product_id")) as [e|v1] eqn:C.
      - apply cast_error in C. destruct C as (t & ->). eauto.
      - simpl. eauto. }
    destruct (mapM_inl _ _ _ _ Hin St) as (x' & e' & _ & Sx & M).
    apply select_item_error in Sx. destruct Sx as (ty & t' & ->).
    repeat split; [|eauto|eauto].
    unfold aborted. rewrite apply_invoice_update_eq, M.
    destruct (fold_effects item_deleted _ _) as [l|]; [|eauto].
    destruct (planned_casts _) as [?|[]]; [eauto|].
    destruct (update_where _ _ _) as [e|[table returned]]; eauto.
  - intros item r S. apply select_item_inr in S.
    destruct S as (v1 & v2 & v3 & v4 & v5 & v6 & v7 & v8
                   & _ & C & _ & _ & _ & _ & _ & _ & ->).
    simpl. apply cast_inr in C. rewrite field_text_present in C.
    destruct (present_non_null item "batch_id") as [j|]; simpl in C.
    + destruct C as (u & _ & ->). split; discriminate.
    + subst v2. tauto.
Qed.

(** C9: members of the patch outside the eleven the SET list reads are
    ignored: the call does what it does with any of them removed; and on a
    call that succeeds no invoice row has changed its identifier or a
    column other than the eleven fields and updated_at. *)
Theorem extra_patch_keys_are_ignored
    now d invoice_id header_patch replacement_items (keep : string -> bool) :
  (forall key, In key updatable_fields -> keep key = true)
  -> apply_invoice_update now d invoice_id (restrict_patch keep header_patch)
                          replacement_items
     = apply_invoice_update now d invoice_id header_patch replacement_items
     /\ forall v d',
          apply_invoice_update now d invoice_id header_patch replacement_items
          = (inr v, d')
          -> Forall2 (fun r r' =>
                        SalesInvoices.id r' = SalesInvoices.id r
                        /\ SalesInvoices.other_columns r'
                           = SalesInvoices.other_columns r)
                     (sales_invoices d) (sales_invoices d').
Proof.
  intros K. split.
  - rewrite !apply_invoice_update_eq.
    destruct (fold_effects item_deleted _ _) as [l|]; [|reflexivity].
    rewrite (planned_casts_same_fields header_patch (restrict_patch keep header_patch))
      by (intros key Hk; apply field_text_kept; auto).
    destruct (planned_casts _) as [?|[]]; [reflexivity|].
    rewrite (update_where_same _ (new_version now (restrict_patch keep header_patch) l)
                               (new_version now header_patch l));
      [reflexivity|].
    intros r. unfold new_version. rewrite set_clause_restricted by exact K.
    reflexivity.
  - intros v d'. rewrite apply_invoice_update_eq.
    destruct (fold_effects item_deleted _ _) as [l|]; [|discriminate].
    destruct (planned_casts _) as [?|[]]; [discriminate|].
    destruct (update_where _ _ _) as [e|[table returned]] eqn:U; [discriminate|].
    destruct (mapM _ _) as [e|rows]; [discriminate|].
    destruct (fold_effects (item_inserted _) _ _); [|discriminate].
    intros [= _ <-]. simpl.
    apply update_where_inr in U. destruct U as (F & _).
    eapply Forall2_impl; [exact F|]. intros r r' Hr. simpl in Hr.
    destruct (bool_decide (SalesInvoices.id r = invoice_id)).
    + apply new_version_inr in Hr. destruct Hr as (Hr & _).
      apply set_clause_patched in Hr. tauto.
    + subst r'. auto.
Qed.

(** C10: a call on an identifier leaves every invoice row with another
    identifier, and every line item of another invoice, as it was: the
    invoice table keeps its rows' identifiers and changes only rows with
    the identifier asked for, and the items of every other invoice are the
    same before and after, whether the call succeeds or not. *)
Theorem other_invoices_untouched
    now d invoice_id header_patch replacement_items :
  let d' := snd (apply_invoice_update now d invoice_id header_patch
                                      replacement_items) in
  Forall2 (fun r r' =>
             SalesInvoices.id r' = SalesInvoices.id r
             /\ (SalesInvoices.id r <> invoice_id -> r' = r))
          (sales_invoices d) (sales_invoices d')
  /\ items_of_others invoice_id d' = items_of_others invoice_id d
  /\ (forall other, other <> invoice_id -> items_of other d' = items_of other d)
  /\ (forall r, In r (sales_invoice_items d')
                -> In r (sales_invoice_items d)
                   \/ SalesInvoiceItems.invoice_id r = invoice_id).
Proof.
  assert (Forall2 (fun r r' : SalesInvoices.row =>
                     SalesInvoices.id r' = SalesInvoices.id r
                     /\ (SalesInvoices.id r <> invoice_id -> r' = r))
                  (sales_invoices d) (sales_invoices d)) as Same.
  { induction (sales_invoices d); constructor; auto. }
  rewrite apply_invoice_update_eq.
  destruct (fold_effects item_deleted _ _) as [l|]; [|simpl; auto].
  destruct (planned_casts _) as [?|[]]; [simpl; auto|].
  destruct (update_where _ _ _) as [e|[table returned]] eqn:U; [simpl; auto|].
  destruct (mapM _ _) as [e|rows] eqn:M; [simpl; auto|].
  destruct (fold_effects (item_inserted _) _ _); [|simpl; auto].
  simpl. clear Same.
  pose proof (selected_rows_bound _ _ _ M) as B.
  destruct (filter_bound_all invoice_id rows B) as (_ & Bn).
  destruct (filter_others_twice invoice_id (sales_invoice_items d)) as (T & _).
  repeat split.
  - apply update_where_inr in U. destruct U as (F & _).
    eapply Forall2_impl; [exact F|]. intros r r' Hr. simpl in Hr.
    destruct (bool_decide (SalesInvoices.id r = invoice_id)) eqn:C.
    + apply new_version_inr in Hr. destruct Hr as (Hr & _).
      apply set_clause_patched in Hr. destruct Hr as (_ & _ & Hid & _).
      apply bool_decide_eq_true in C. split; [exact Hid|]. intros N. contradiction.
    + subst r'. auto.
  - unfold items_of_others at 1. simpl. rewrite filter_app.
    fold (items_of_others invoice_id d). unfold items_of_others at 1.
    rewrite T, Bn, app_nil_r. reflexivity.
  - intros other N. unfold items_of. simpl. rewrite filter_app.
    assert (filter (fun r => SalesInvoiceItems.invoice_id r = other) rows = [])
      as ->.
    { clear -B N. induction B as [|r rows Hr _ IH]; [reflexivity|].
      rewrite filter_cons, IH. rewrite decide_False by congruence. reflexivity. }
    rewrite app_nil_r. unfold items_of_others.
    apply filter_other_invoice. exact N.
  - intros r Hin. apply in_app_or in Hin. destruct Hin as [Hin|Hin].
    + left. unfold items_of_others in Hin.
      apply list_elem_of_In, list_elem_of_filter in Hin.
      apply list_elem_of_In. tauto.
    + right. rewrite Forall_forall in B. apply B. apply list_elem_of_In. exact Hin.
Qed.

End Claims.

Section StockOrdering.
Context `{NumericArith}.

(** C5, amended: the row events of every execution, completed or not, are
    deletions of the invoice's old items in table order, then (only once
    every old item is deleted) the updates of the invoice's header rows,
    then insertions of the replacement rows in their order: no insertion
    precedes a deletion.  On a call that succeeds they are the deletions of
    all the old items, the updates of the invoice's rows and the insertions
    of all the items the invoice has afterwards.  So, with the stock ledger
    of the specification, replacing an item of quantity X by one of
    quantity Y of the same product, of which Q is on hand, succeeds whenever
    Y <= Q + X and Y does not exceed the maximum-quantity ceiling of the
    replacement, if it has one; it leaves Q + X - Y on hand. *)
Theorem deletes_precede_inserts :
  (forall (S : Schema) now (d : database) invoice_id header_patch replacement_items,
     let events := trace (update_sales_invoice_atomic now invoice_id header_patch
                                                      replacement_items) d in
     (exists deleted updated inserted,
        events = List.map item_delete deleted ++ List.map invoice_update updated
                 ++ List.map item_insert inserted
        /\ deleted `prefix_of` items_of invoice_id d
        /\ (updated <> [] \/ inserted <> [] -> deleted = items_of invoice_id d)
        /\ Forall (fun r => SalesInvoices.id r = invoice_id) updated
        /\ (forall rows,
              mapM (select_item invoice_id) replacement_items = inr rows
              -> inserted `prefix_of` rows)
        /\ (inserted <> []
            -> exists rows,
                 mapM (select_item invoice_id) replacement_items = inr rows))
     /\ (forall i j r r',
           events !! i = Some (item_insert r) -> events !! j = Some (item_delete r')
           -> j < i)
     /\ (forall v d',
           apply_invoice_update now d invoice_id header_patch replacement_items
           = (inr v, d')
           -> events
              = List.map item_delete (items_of invoice_id d)
                ++ List.map invoice_update
                     (filter (fun r => SalesInvoices.id r = invoice_id)
                             (sales_invoices d'))
                ++ List.map item_insert (items_of invoice_id d')))
  /\ (forall now (d : @database _ stock_ledger) invoice_id header_patch
             old new r product X Y Q,
        invoice_exists invoice_id d
        -> (forall key ty text,
              In (key, ty) header_casts -> header_patch ->> key = Some text
              -> input_ok ty text = true)
        -> items_of invoice_id d = [old]
        -> SalesInvoiceItems.product_id old = Some product
        -> SalesInvoiceItems.quantity old = Some X
        -> on_hand d product = Some Q
        -> select_item invoice_id new = inr r
        -> SalesInvoiceItems.product_id r = Some product
        -> SalesInvoiceItems.quantity r = Some Y
        -> numeric_le Y (numeric_add Q X) = true
        -> within_ceiling r = true
        -> exists d',
             apply_invoice_update now d invoice_id header_patch [new]
             = (inr (Some invoice_id), d')
             /\ on_hand d' product = Some (numeric_sub (numeric_add Q X) Y)).
Proof.
  split.
  - intros S now d invoice_id header_patch replacement_items events.
    split; [apply statement_order|]. split; [|apply successful_trace].
    intros i j r r'. unfold events.
    destruct (statement_order now d invoice_id header_patch replacement_items)
      as (deleted & updated & inserted & -> & _).
    apply deletions_first.
  - intros now d invoice_id header_patch old new r product X Y Q
           Hex Hpatch Hold Hp HX HQ Hnew Hrp HY Hle Hceil.
    unfold on_hand in *.
    rewrite apply_invoice_update_eq, Hold.
    cbn [fold_effects item_deleted stock_ledger]. unfold restore_stock.
    rewrite Hp, HX. cbv beta iota. rewrite HQ. cbv beta iota.
    rewrite (planned_casts_succeeds header_patch Hpatch).
    match goal with |- context [update_where ?c ?f ?rows] =>
      destruct (update_where_succeeds c f rows) as (table & returned & U)
    end.
    { intros r0. destruct (set_clause_succeeds now header_patch r0 Hpatch)
        as (r' & E).
      exists r'. unfold new_version. rewrite E. reflexivity. }
    rewrite U. apply returning_id in U. destruct U as (U & _).
    rewrite (U Hex). cbn [mapM]. rewrite Hnew. simpl.
    unfold deduct_stock. rewrite Hrp, HY, Hceil. cbv beta iota.
    rewrite lookup_insert_eq, Hle.
    eexists. split; [reflexivity|]. simpl. apply lookup_insert_eq.
Qed.

End StockOrdering.

(** ** The claims on a shop with one invoice *)

Section Shop.
Import Examples.

Example uuid_in_hyphenated :
  uuid_in "00000000-0000-0000-0000-0000000000a1" = Some widget.
Proof. reflexivity. Qed.

Example uuid_in_empty : uuid_in EmptyString = None.
Proof. reflexivity. Qed.

Example field_text_of_null : JObject [("notes", JNull)] ->> "notes" = None.
Proof. reflexivity. Qed.

Example field_text_of_number :
  item_without_batch "6" EmptyString ->> "quantity" = Some "6".
Proof. reflexivity. Qed.

(** Eight widgets are more than the seven on hand once five are restored:
    the insertion is rejected and the shop is as it was. *)
Example insufficient_stock_rolls_back :
  apply_invoice_update 2000%Z shop 7%N note_patch [item_without_batch "8" EmptyString]
  = (inl (schema_violation stmt_insert), shop).
Proof. reflexivity. Qed.

Example malformed_date_rolls_back :
  apply_invoice_update 2000%Z shop 7%N
    (JObject [("invoice_date", JString "not-a-date")]) []
  = (inl (invalid_text_representation ty_date "not-a-date"), shop).
Proof. reflexivity. Qed.

Lemma invoice_7_exists : invoice_exists 7%N shop.
Proof. exists invoice_7. split; [left; reflexivity|reflexivity]. Defined.




Lemma note_patch_coerces :
  forall key ty text,
    In (key, ty) header_casts -> note_patch ->> key = Some text
    -> input_ok ty text = true.
Proof.
  intros key ty text Hin. unfold header_casts in Hin. simpl in Hin.
  repeat (destruct Hin as [[= <- <-]|Hin]; [discriminate|]).
  destruct Hin.
Defined.

(** The casts to uuid, numeric and integer are made before any row is
    looked at: with no invoice row the malformed subtotal still raises, and
    on an invoice row it raises before the malformed date does. *)
Example malformed_subtotal_on_missing_invoice :
  apply_invoice_update 2000%Z shop 9%N subtotal_patch []
  = (inl (invalid_text_representation ty_numeric "abc"), shop).
Proof. reflexivity. Qed.

Example malformed_subtotal_comes_first :
  apply_invoice_update 2000%Z shop 7%N
    (JObject [("invoice_date", JString "not-a-date"); ("subtotal", JString "abc")])
    []
  = (inl (invalid_text_representation ty_numeric "abc"), shop).
Proof. reflexivity. Qed.

(** A date is cast on the rows the UPDATE selects: with no invoice row the
    malformed date is not read. *)
Example malformed_date_on_missing_invoice :
  apply_invoice_update 2000%Z shop 9%N date_patch [] = (inr None, shop).
Proof. reflexivity. Qed.





Lemma shop_updated :
  apply_invoice_update 2000%Z shop 7%N note_patch [item_without_batch "6" EmptyString]
  = (inr (Some 7%N), shop_after).
Proof. reflexivity. Defined.

Lemma header_patch_semantics_witness :
  Forall2 (fun r r' =>
             if decide (SalesInvoices.id r = 7%N)
             then header_patched 2000%Z note_patch r r' /\ never_cleared r r'
             else r' = r)
          (sales_invoices shop) (sales_invoices shop_after).
Proof. exact (header_patch_semantics _ _ _ _ _ _ _ shop_updated). Defined.

Lemma items_fully_replaced_witness :
  Forall2 (fun item r => select_item 7%N item = inr r)
          [item_without_batch "6" EmptyString] (items_of 7%N shop_after)
  /\ length (items_of 7%N shop_after) = 1%nat.
Proof. exact (items_fully_replaced _ _ _ _ _ _ _ shop_updated). Defined.

Lemma deletes_precede_inserts_witness :
  let events := trace (update_sales_invoice_atomic 2000%Z 7%N note_patch
                         [item_without_batch "6" EmptyString]) shop in
  events = List.map item_delete (items_of 7%N shop)
           ++ List.map invoice_update
                (filter (fun r => SalesInvoices.id r = 7%N)
                        (sales_invoices shop_after))
           ++ List.map item_insert (items_of 7%N shop_after)
  /\ (forall i j r r',
        events !! i = Some (item_insert r) -> events !! j = Some (item_delete r')
        -> j < i)
  /\ exists d',
       apply_invoice_update 2000%Z shop 7%N note_patch
                            [item_without_batch "6" EmptyString]
       = (inr (Some 7%N), d')
       /\ on_hand d' widget = Some (2 + 5 - 6)%Z.
Proof.
  destruct deletes_precede_inserts as (T1 & T2).
  pose proof (T1 stock_ledger 2000%Z shop 7%N note_patch
                 [item_without_batch "6" EmptyString]) as T.
  cbv zeta in T. destruct T as (_ & Order & Events).
  cbv zeta. split; [exact (Events _ _ shop_updated)|]. split; [exact Order|].
  eapply (T2 2000%Z shop 7%N note_patch (old_item 7%N 5%Z)
             (item_without_batch "6" EmptyString) _ widget 5%Z 6%Z 2%Z).
  - exact invoice_7_exists.
  - exact note_patch_coerces.
  - reflexivity.
  - reflexivity.
  - reflexivity.
  - reflexivity.
  - reflexivity.
  - reflexivity.
  - reflexivity.
  - reflexivity.
  - reflexivity.
Defined.

(** The row events of the call on the shop: the old item is deleted, the
    invoice is updated, the new item is inserted. *)
Example events_of_the_shop :
  trace (update_sales_invoice_atomic 2000%Z 7%N note_patch
           [item_without_batch "6" EmptyString]) shop
  = [item_delete (old_item 7%N 5%Z)]
    ++ List.map invoice_update (sales_invoices shop_after)
    ++ List.map item_insert (sales_invoice_items shop_after).
Proof. reflexivity. Qed.

(** Six widgets are no more than the seven on hand once five are restored,
    but more than the ceiling of three the replacement carries: the
    insertion is rejected. *)
Example ceiling_rolls_back :
  apply_invoice_update 2000%Z shop 7%N note_patch [item_with_ceiling "6" "3"]
  = (inl (schema_violation stmt_insert), shop).
Proof. reflexivity. Qed.

(** C5 as stated fails: Y <= Q + X does not make the replacement succeed
    when Y exceeds the ceiling the replacement carries. *)
Lemma ceiling_rejects_within_stock :
  ~ (forall now (d : @database _ stock_ledger) invoice_id header_patch
            old new r product X Y Q,
       invoice_exists invoice_id d
       -> (forall key ty text,
             In (key, ty) header_casts -> header_patch ->> key = Some text
             -> input_ok ty text = true)
       -> items_of invoice_id d = [old]
       -> SalesInvoiceItems.product_id old = Some product
       -> SalesInvoiceItems.quantity old = Some X
       -> on_hand d product = Some Q
       -> select_item invoice_id new = inr r
       -> SalesInvoiceItems.product_id r = Some product
       -> SalesInvoiceItems.quantity r = Some Y
       -> numeric_le Y (numeric_add Q X) = true
       -> exists d',
            apply_invoice_update now d invoice_id header_patch [new]
            = (inr (Some invoice_id), d')
            /\ on_hand d' product = Some (numeric_sub (numeric_add Q X) Y)).
Proof.
  intros Claim.
  assert (exists d',
            apply_invoice_update 2000%Z shop 7%N note_patch
                                 [item_with_ceiling "6" "3"]
            = (inr (Some 7%N), d')
            /\ on_hand d' widget = Some (2 + 5 - 6)%Z) as (d' & E & _);
    [eapply (Claim 2000%Z shop 7%N note_patch (old_item 7%N 5%Z)
                   (item_with_ceiling "6" "3") _ widget 5%Z 6%Z 2%Z)|].
  - exact invoice_7_exists.
  - exact note_patch_coerces.
  - reflexivity.
  - reflexivity.
  - reflexivity.
  - reflexivity.
  - reflexivity.
  - reflexivity.
  - reflexivity.
  - reflexivity.
  - rewrite ceiling_rolls_back in E. discriminate E.
Qed.

Lemma empty_reference_is_null_witness :
  Forall2 stored_reference [item_without_batch "6" EmptyString]
          (items_of 7%N shop_after).
Proof.
  destruct (empty_reference_is_null 2000%Z shop 7%N note_patch
              [item_without_batch "6" EmptyString]) as (_ & T).
  exact (T _ _ shop_updated).
Defined.


Lemma empty_batch_reference_is_rejected_witness :
  aborted (apply_invoice_update 2000%Z shop 7%N note_patch
             [new_item "6" EmptyString EmptyString]) shop.
Proof.
  destruct (empty_batch_reference_is_rejected 2000%Z shop 7%N note_patch
              [new_item "6" EmptyString EmptyString]) as (T & _).
  apply (T (new_item "6" EmptyString EmptyString)).
  - left. reflexivity.
  - reflexivity.
Defined.

Lemma extra_patch_keys_are_ignored_witness :
  apply_invoice_update 2000%Z shop 7%N (JObject [("notes", JString "second")])
                       [item_without_batch "6" EmptyString]
  = apply_invoice_update 2000%Z shop 7%N note_patch
                         [item_without_batch "6" EmptyString].
Proof.
  destruct (extra_patch_keys_are_ignored 2000%Z shop 7%N note_patch
              [item_without_batch "6" EmptyString]
              (fun key => negb (String.eqb key "bogus"))) as (T & _).
  - intros key Hin. unfold updatable_fields in Hin. simpl in Hin.
    repeat (destruct Hin as [<-|Hin]; [reflexivity|]). destruct Hin.
  - exact T.
Defined.

End Shop.

(** ** Further properties of the procedure *)

Section Further.
Context `{Schema}.

Implicit Types (now : timestamptz) (d : database) (invoice_id : uuid)
               (header_patch : jsonb) (replacement_items : list jsonb).

Lemma member_dropped (keep : string -> bool) (key : string)
    (members : list (string * jsonb)) :
  keep key = false
  -> member key (List.filter (fun kv => keep (fst kv)) members) = None.
Proof.
  intros K. induction members as [|[k v] members IH]; [reflexivity|].
  simpl. destruct (keep k) eqn:Kk; simpl; [|exact IH].
  destruct (String.eqb_spec k key) as [->|_]; [congruence|exact IH].
Qed.

Lemma field_text_drop_nulls (j : jsonb) (key : string) :
  drop_nulls j ->> key = j ->> key.
Proof.
  unfold drop_nulls. destruct (has_value j key) eqn:V.
  - apply field_text_kept. exact V.
  - unfold has_value in V. apply bool_decide_eq_false in V.
    apply eq_None_not_Some in V.
    rewrite (field_text_present j key), V. simpl.
    destruct j; try reflexivity. simpl.
    rewrite member_dropped; [reflexivity|].
    unfold has_value. apply bool_decide_eq_false. rewrite V.
    intros [? ?]. discriminate.
Qed.

Lemma select_item_same_fields (invoice_id : uuid) (item item' : jsonb) :
  (forall key, In key item_fields -> item' ->> key = item ->> key)
  -> select_item invoice_id item' = select_item invoice_id item.
Proof.
  intros E. unfold select_item.
  rewrite !E by (unfold item_fields, item_casts; simpl; tauto).
  reflexivity.
Qed.

Lemma set_clause_same_fields (now : timestamptz) (patch patch' : jsonb)
    (r : SalesInvoices.row) :
  (forall key, In key updatable_fields -> patch' ->> key = patch ->> key)
  -> set_clause now patch' r = set_clause now patch r.
Proof.
  intros E. unfold set_clause.
  rewrite !E by (unfold updatable_fields; simpl; tauto).
  reflexivity.
Qed.

(** X1: a member that is null is a member that is absent, in the patch and
    in the items: the call does what it does with the null members of the
    patch and of every item removed. *)
Theorem null_members_are_absent now d invoice_id header_patch replacement_items :
  apply_invoice_update now d invoice_id (drop_nulls header_patch)
                       (List.map drop_nulls replacement_items)
  = apply_invoice_update now d invoice_id header_patch replacement_items.
Proof.
  rewrite !apply_invoice_update_eq, mapM_fmap.
  rewrite (mapM_same (fun x => select_item invoice_id (drop_nulls x))
                     (select_item invoice_id))
    by (intros; apply select_item_same_fields; intros;
        apply field_text_drop_nulls).
  destruct (fold_effects item_deleted _ _) as [l|]; [|reflexivity].
  rewrite (planned_casts_same_fields header_patch (drop_nulls header_patch))
    by (intros; apply field_text_drop_nulls).
  destruct (planned_casts _) as [?|[]]; [reflexivity|].
  rewrite (update_where_same _ (new_version now (drop_nulls header_patch) l)
                             (new_version now header_patch l)); [reflexivity|].
  intros r. unfold new_version.
  rewrite (set_clause_same_fields now header_patch (drop_nulls header_patch))
    by (intros; apply field_text_drop_nulls).
  reflexivity.
Qed.

(** X2: members of an item other than the eight the SELECT list reads are
    ignored, an invoice_id member among them: the call does what it does
    with any of them removed, and every row it inserts is bound to the
    identifier of the call. *)
Theorem extra_item_members_are_ignored
    now d invoice_id header_patch replacement_items (keep : string -> bool) :
  (forall key, In key item_fields -> keep key = true)
  -> apply_invoice_update now d invoice_id header_patch
                          (List.map (restrict_patch keep) replacement_items)
     = apply_invoice_update now d invoice_id header_patch replacement_items
     /\ forall v d',
          apply_invoice_update now d invoice_id header_patch replacement_items
          = (inr v, d')
          -> forall r, In r (sales_invoice_items d')
                       -> In r (sales_invoice_items d)
                          \/ SalesInvoiceItems.invoice_id r = invoice_id.
Proof.
  intros K. split.
  - rewrite !apply_invoice_update_eq, mapM_fmap.
    rewrite (mapM_same (fun x => select_item invoice_id (restrict_patch keep x))
                       (select_item invoice_id)); [reflexivity|].
    intros item _. apply select_item_same_fields. intros key Hk.
    apply field_text_kept. apply K. exact Hk.
  - intros v d'. rewrite apply_invoice_update_eq.
    destruct (fold_effects item_deleted _ _) as [l|]; [|discriminate].
    destruct (planned_casts _) as [?|[]]; [discriminate|].
    destruct (update_where _ _ _) as [e|[table returned]]; [discriminate|].
    destruct (mapM _ _) as [e|rows] eqn:M; [discriminate|].
    destruct (fold_effects (item_inserted _) _ _); [|discriminate].
    intros [= _ <-] r Hin. simpl in Hin.
    apply in_app_or in Hin. destruct Hin as [Hin|Hin].
    + left. unfold items_of_others in Hin.
      apply list_elem_of_In, list_elem_of_filter in Hin.
      apply list_elem_of_In. tauto.
    + right. pose proof (selected_rows_bound _ _ _ M) as B.
      rewrite Forall_forall in B. apply B. apply list_elem_of_In. exact Hin.
Qed.

(** X3: a patch that has a value for none of the eleven fields (the empty
    object, a patch that is no object, members that are all null or all
    unknown) changes nothing in the invoice's row but updated_at, on a call
    that succeeds. *)
Theorem patch_without_values_only_stamps
    now d invoice_id header_patch replacement_items v d' :
  (forall key, In key updatable_fields -> present_non_null header_patch key = None)
  -> apply_invoice_update now d invoice_id header_patch replacement_items = (inr v, d')
  -> sales_invoices d'
     = List.map (fun r => if decide (SalesInvoices.id r = invoice_id)
                          then stamped now r else r)
                (sales_invoices d).
Proof.
  intros N. rewrite apply_invoice_update_eq.
  destruct (fold_effects item_deleted _ _) as [l|]; [|discriminate].
  destruct (planned_casts _) as [?|[]]; [discriminate|].
  destruct (update_where _ _ _) as [e|[table returned]] eqn:U; [discriminate|].
  destruct (mapM _ _) as [e|rows]; [discriminate|].
  destruct (fold_effects (item_inserted _) _ _); [|discriminate].
  intros [= _ <-]. simpl.
  apply update_where_inr in U. destruct U as (F & _).
  induction F as [|r r' rs tb Hr _ IH]; [reflexivity|].
  simpl. rewrite IH. f_equal.
  destruct (decide (SalesInvoices.id r = invoice_id)) as [Y|Y].
  - rewrite bool_decide_eq_true_2 in Hr by assumption.
    apply new_version_inr in Hr. destruct Hr as (Hr & _).
    assert (forall key, In key updatable_fields -> header_patch ->> key = None) as T.
    { intros key Hk. rewrite field_text_present, (N key Hk). reflexivity. }
    unfold set_clause in Hr.
    rewrite !T in Hr by (unfold updatable_fields; simpl; tauto).
    simpl in Hr. injection Hr as <-. reflexivity.
  - rewrite bool_decide_eq_false_2 in Hr by assumption. exact Hr.
Qed.

(** *** Where an error comes from *)

Lemma update_where_raised (cond : SalesInvoices.row -> bool)
    (set : SalesInvoices.row -> result SalesInvoices.row)
    (rows : list SalesInvoices.row) (e : pg_error) :
  update_where cond set rows = inl e
  -> exists r, In r rows /\ cond r = true /\ set r = inl e.
Proof.
  induction rows as [|r rows IH]; [discriminate|].
  cbn [update_where]. destruct (cond r) eqn:C.
  - destruct (set r) as [e'|r'] eqn:S; simpl.
    + intros [= <-]. exists r. simpl. auto.
    + destruct (update_where cond set rows) as [e'|[t u]]; simpl; [|discriminate].
      intros [= <-]. destruct (IH eq_refl) as (x & ? & ? & ?).
      exists x. simpl. auto.
  - destruct (update_where cond set rows) as [e'|[t u]]; simpl; [|discriminate].
    intros [= <-]. destruct (IH eq_refl) as (x & ? & ? & ?).
    exists x. simpl. auto.
Qed.

Lemma mapM_raised {A B : Type} (f : A -> result B) (l : list A) (e : pg_error) :
  mapM f l = inl e -> exists x, In x l /\ f x = inl e.
Proof.
  induction l as [|x l IH]; [discriminate|].
  cbn [mapM]. destruct (f x) as [e'|y] eqn:F; simpl.
  - intros [= <-]. exists x. simpl. auto.
  - destruct (mapM f l) as [e'|k]; simpl; [|discriminate].
    intros [= <-]. destruct (IH eq_refl) as (x' & ? & ?).
    exists x'. simpl. auto.
Qed.

Lemma cast_raised {T : Type} (ty : sqltype) (input : string -> option T)
    (text : option string) (e : pg_error) :
  cast ty input text = inl e
  -> exists t, text = Some t /\ input t = None
               /\ e = invalid_text_representation ty t.
Proof.
  unfold cast. destruct text as [t|]; [|discriminate].
  destruct (input t) eqn:I; [discriminate|]. intros [= <-]. eauto.
Qed.

Lemma rejected_input (ty : sqltype) (t : string) :
  match ty with
  | ty_date => date_in t = None
  | ty_numeric => numeric_in t = None
  | ty_integer => int4_in t = None
  | ty_uuid => uuid_in t = None
  end
  -> input_ok ty t = false.
Proof.
  destruct ty; simpl; intros E; apply bool_decide_eq_false; rewrite E;
    intros [? ?]; discriminate.
Qed.

Ltac failing_cast_found :=
  repeat match goal with
         | E : (cast ?ty ?inp ?text ≫= _) = inl _ |- _ =>
             let C := fresh "C" in
             destruct (cast ty inp text) eqn:C; simpl in E;
             [ injection E as <-; apply cast_raised in C;
               destruct C as (t & Ht & Hi & ->)
             | ]
         end.

Lemma set_clause_raised (now : timestamptz) (patch : jsonb) (r : SalesInvoices.row)
    (e : pg_error) :
  set_clause now patch r = inl e
  -> exists key ty t,
       In (key, ty) header_casts /\ patch ->> key = Some t
       /\ input_ok ty t = false /\ e = invalid_text_representation ty t.
Proof.
  unfold set_clause. intros E. failing_cast_found; try discriminate.
  all: match goal with
       | Ht : _ ->> ?key = Some ?t |- exists _ _ _, _ /\ _ /\ _ /\ invalid_text_representation ?ty _ = _ =>
           exists key, ty, t;
           split; [unfold header_casts; simpl; tauto|];
           split; [exact Ht|];
           split; [apply rejected_input; exact Hi|reflexivity]
       end.
Qed.

Lemma select_item_raised (invoice_id : uuid) (item : jsonb) (e : pg_error) :
  select_item invoice_id item = inl e
  -> exists key ty t,
       In (key, ty) item_casts /\ item ->> key = Some t
       /\ input_ok ty t = false /\ e = invalid_text_representation ty t
       /\ (key = "delivery_challan_item_id" -> t <> EmptyString).
Proof.
  unfold select_item. intros E. failing_cast_found; try discriminate.
  all: try match goal with
       | Ht : NULLIF (_ ->> ?key) _ = Some ?t |- _ =>
           unfold NULLIF in Ht;
           destruct (item ->> key) as [t'|] eqn:Hk; [|discriminate Ht];
           destruct (String.eqb_spec t' EmptyString) as [|Hne]; [discriminate Ht|];
           injection Ht as ->
       end.
  all: match goal with
       | Ht : _ ->> ?key = Some ?t |- exists _ _ _, _ /\ _ /\ _ /\ invalid_text_representation ?ty _ = _ /\ _ =>
           exists key, ty, t;
           split; [unfold item_casts; simpl; tauto|];
           split; [exact Ht|];
           split; [apply rejected_input; exact Hi|];
           split; [reflexivity|]
       end.
  all: first [ discriminate | intros _; assumption ].
Qed.

Lemma planned_casts_raised (patch : jsonb) (e : pg_error) :
  planned_casts patch = inl e
  -> exists key ty t,
       In (key, ty) header_casts /\ ty <> ty_date /\ patch ->> key = Some t
       /\ input_ok ty t = false /\ e = invalid_text_representation ty t.
Proof.
  unfold planned_casts. intros E. failing_cast_found; try discriminate.
  all: match goal with
       | Ht : _ ->> ?key = Some ?t |- exists _ _ _, _ /\ _ /\ _ /\ _ /\ invalid_text_representation ?ty _ = _ =>
           exists key, ty, t;
           split; [unfold header_casts; simpl; tauto|];
           split; [discriminate|];
           split; [exact Ht|];
           split; [apply rejected_input; exact Hi|reflexivity]
       end.
Qed.

(** X4: every error of a call has its cause in the arguments or the
    schema.  A coercion error carries the text of a member of the patch (a
    date member only if the invoice exists) or of an item, which the input
    routine of the member's type rejects; a schema error of a statement
    means that the schema rejected a deleted item, the new version of a
    header row, or an inserted item. *)
Theorem every_error_has_a_cause
    now d invoice_id header_patch replacement_items e d' :
  apply_invoice_update now d invoice_id header_patch replacement_items = (inl e, d')
  -> match e with
     | invalid_text_representation ty t =>
         (exists key, In (key, ty) header_casts
                      /\ header_patch ->> key = Some t
                      /\ input_ok ty t = false
                      /\ (ty = ty_date -> invoice_exists invoice_id d))
         \/ (exists item key, In item replacement_items
                              /\ In (key, ty) item_casts
                              /\ item ->> key = Some t
                              /\ input_ok ty t = false
                              /\ (key = "delivery_challan_item_id"
                                  -> t <> EmptyString))
     | schema_violation stmt_delete =>
         fold_effects item_deleted (items_of invoice_id d) (ledger_state d) = None
     | schema_violation stmt_update =>
         exists l r r',
           fold_effects item_deleted (items_of invoice_id d) (ledger_state d) = Some l
           /\ In r (sales_invoices d) /\ SalesInvoices.id r = invoice_id
           /\ set_clause now header_patch r = inr r'
           /\ invoice_constraints l r' = false
     | schema_violation stmt_insert =>
         exists l table returned rows,
           fold_effects item_deleted (items_of invoice_id d) (ledger_state d) = Some l
           /\ update_where (fun r => bool_decide (SalesInvoices.id r = invoice_id))
                           (new_version now header_patch l) (sales_invoices d)
              = inr (table, returned)
           /\ mapM (select_item invoice_id) replacement_items = inr rows
           /\ fold_effects (item_inserted table) rows l = None
     end.
Proof.
  rewrite apply_invoice_update_eq.
  destruct (fold_effects item_deleted _ _) as [l|] eqn:D;
    [|intros [= <- _]; reflexivity].
  destruct (planned_casts _) as [ep|[]] eqn:P.
  { intros [= <- _]. apply planned_casts_raised in P.
    destruct P as (key & ty & t & Hin & Hty & Hk & Hbad & ->).
    left. exists key. repeat split; auto. intros Y. contradiction. }
  destruct (update_where _ _ _) as [eu|[table returned]] eqn:U.
  { intros [= <- _]. apply update_where_raised in U.
    destruct U as (r & Hr & C & S). apply bool_decide_eq_true in C.
    unfold new_version in S.
    destruct (set_clause now header_patch r) as [es|r'] eqn:Sc; simpl in S.
    - injection S as <-. apply set_clause_raised in Sc.
      destruct Sc as (key & ty & t & Hin & Hk & Hbad & ->).
      left. exists key. repeat split; auto. intros _. exists r. auto.
    - unfold checked in S.
      destruct (invoice_constraints l r') eqn:Ic; [discriminate|].
      injection S as <-. exists l, r, r'. auto. }
  destruct (mapM _ _) as [em|rows] eqn:M.
  { intros [= <- _]. apply mapM_raised in M. destruct M as (item & Hitem & S).
    apply select_item_raised in S.
    destruct S as (key & ty & t & Hin & Hk & Hbad & -> & Hne).
    right. exists item, key. auto 6. }
  destruct (fold_effects (item_inserted _) _ _) eqn:I; [discriminate|].
  intros [= <- _]. exists l, table, returned, rows. auto.
Qed.

(** X5: on a call that succeeds the ledger is what the schema makes of the
    old items' deletions, in table order, and then of the new items'
    insertions, in their order, seeing the invoice table as updated; the new
    version of each of the invoice's rows has passed the constraints on the
    ledger as the deletions left it.  With no item stored and none supplied
    the ledger is as before. *)
Theorem ledger_after_deletions_then_insertions
    now d invoice_id header_patch replacement_items v d' :
  apply_invoice_update now d invoice_id header_patch replacement_items = (inr v, d')
  -> (exists l,
        fold_effects item_deleted (items_of invoice_id d) (ledger_state d) = Some l
        /\ fold_effects (item_inserted (sales_invoices d')) (items_of invoice_id d') l
           = Some (ledger_state d')
        /\ Forall (fun r' => SalesInvoices.id r' = invoice_id
                             -> invoice_constraints l r' = true)
                  (sales_invoices d'))
     /\ (items_of invoice_id d = [] -> replacement_items = []
         -> ledger_state d' = ledger_state d).
Proof.
  intros E. pose proof (replacement_rows _ _ _ _ _ _ _ E) as R.
  rewrite apply_invoice_update_eq in E.
  destruct (fold_effects item_deleted _ _) as [l|] eqn:D; [|discriminate].
  destruct (planned_casts _) as [?|[]]; [discriminate|].
  destruct (update_where _ _ _) as [e|[table returned]] eqn:U; [discriminate|].
  destruct (mapM _ _) as [e|rows] eqn:M; [discriminate|].
  destruct (fold_effects (item_inserted _) _ _) as [l2|] eqn:I; [|discriminate].
  injection E as _ <-.
  assert (items_of invoice_id
            {| sales_invoices := table;
               sales_invoice_items := items_of_others invoice_id d ++ rows;
               ledger_state := l2 |} = rows) as Hrows.
  { apply mapM_inr in M. clear -R M. revert R M.
    generalize (items_of invoice_id
                  {| sales_invoices := table;
                     sales_invoice_items := items_of_others invoice_id d ++ rows;
                     ledger_state := l2 |}).
    intros stored R. revert rows.
    induction R as [|item r items stored' Hr _ IH]; intros rows M;
      inversion M; subst; [reflexivity|].
    f_equal; [congruence|]. apply IH. assumption. }
  split.
  - exists l. rewrite Hrows. simpl. repeat split; [exact I|].
    apply update_where_inr in U. destruct U as (F & _).
    clear -F. induction F as [|r r' rows' table' Hr _ IH]; constructor; [|exact IH].
    intros Hid. destruct (bool_decide (SalesInvoices.id r = invoice_id)) eqn:C.
    + apply new_version_inr in Hr. tauto.
    + subst r'. apply bool_decide_eq_false in C. contradiction.
  - intros Hold ->. simpl in M. injection M as <-. simpl in I.
    rewrite Hold in D. simpl in D. simpl. congruence.
Qed.

(** *** Two calls in a row *)

Lemma member_app (key : string) (a b : list (string * jsonb)) :
  member key (a ++ b)
  = match member key a with
    | Some v => Some v
    | None => member key b
    end.
Proof.
  induction a as [|[k v] a IH]; [reflexivity|].
  simpl. destruct (String.eqb k key); [reflexivity|exact IH].
Qed.

Lemma present_non_null_overlay (later earlier : jsonb) (key : string) :
  present_non_null (overlay later earlier) key
  = match present_non_null later key with
    | Some v => Some v
    | None => present_non_null earlier key
    end.
Proof.
  unfold overlay, drop_nulls. simpl. rewrite member_app.
  destruct (has_value later key) eqn:V.
  - pose proof V as V'. unfold has_value in V'. apply bool_decide_eq_true in V'.
    destruct V' as (v & Hv). rewrite Hv.
    destruct later; try discriminate Hv. simpl in *.
    rewrite member_kept by exact V.
    destruct (member key members) as [[]|]; congruence.
  - pose proof V as V'. unfold has_value in V'. apply bool_decide_eq_false in V'.
    apply eq_None_not_Some in V'. rewrite V'.
    assert (member key (members_of (restrict_patch (has_value later) later)) = None)
      as ->.
    { destruct later; try reflexivity. simpl. apply member_dropped. exact V. }
    destruct earlier; reflexivity.
Qed.

Lemma patched_twice {T : Type} (ty : sqltype) (input : string -> option T)
    (earlier later : jsonb) (key : string) (v1 v2 prior : option T) :
  cast ty input (earlier ->> key) = inr v1
  -> cast ty input (later ->> key) = inr v2
  -> patched_field input (overlay later earlier) key prior
                   (COALESCE v2 (COALESCE v1 prior)).
Proof.
  intros E1 E2. apply cast_inr in E1, E2.
  rewrite field_text_present in E1, E2.
  unfold patched_field. rewrite present_non_null_overlay.
  destruct (present_non_null later key) as [j2|]; simpl in E2.
  - destruct E2 as (x & Hx & ->). exists x. auto.
  - subst v2. simpl.
    destruct (present_non_null earlier key) as [j1|]; simpl in E1.
    + destruct E1 as (x & Hx & ->). exists x. auto.
    + subst v1. reflexivity.
Qed.

Lemma text_patched_twice (earlier later : jsonb) (key : string)
    (prior : option string) :
  patched_field Some (overlay later earlier) key prior
                (COALESCE (later ->> key) (COALESCE (earlier ->> key) prior)).
Proof.
  unfold patched_field. rewrite present_non_null_overlay, !field_text_present.
  destruct (present_non_null later key) as [j2|]; simpl; [eauto|].
  destruct (present_non_null earlier key) as [j1|]; simpl; eauto.
Qed.

Lemma set_clause_twice (now now' : timestamptz) (earlier later : jsonb)
    (r r1 r2 : SalesInvoices.row) :
  set_clause now earlier r = inr r1 -> set_clause now' later r1 = inr r2
  -> header_patched now' (overlay later earlier) r r2.
Proof.
  intros E1 E2. apply set_clause_inr in E1, E2.
  destruct E1 as (a1 & a2 & a3 & a4 & a5 & a6 & a7 & a8
                  & A1 & A2 & A3 & A4 & A5 & A6 & A7 & A8 & ->).
  destruct E2 as (b1 & b2 & b3 & b4 & b5 & b6 & b7 & b8
                  & B1 & B2 & B3 & B4 & B5 & B6 & B7 & B8 & ->).
  constructor; simpl;
    solve [ eapply patched_twice; eassumption
          | apply text_patched_twice
          | reflexivity ].
Qed.

Lemma others_kept now d invoice_id header_patch replacement_items :
  items_of_others invoice_id
    (snd (apply_invoice_update now d invoice_id header_patch replacement_items))
  = items_of_others invoice_id d.
Proof.
  rewrite apply_invoice_update_eq.
  destruct (fold_effects item_deleted _ _) as [l|]; [|reflexivity].
  destruct (planned_casts _) as [?|[]]; [reflexivity|].
  destruct (update_where _ _ _) as [e|[table returned]]; [reflexivity|].
  destruct (mapM _ _) as [e|rows] eqn:M; [reflexivity|].
  destruct (fold_effects (item_inserted _) _ _); [|reflexivity].
  simpl. unfold items_of_others at 1. simpl. rewrite filter_app.
  fold (items_of_others invoice_id d). unfold items_of_others at 1.
  destruct (filter_others_twice invoice_id (sales_invoice_items d)) as (-> & _).
  destruct (filter_bound_all invoice_id rows (selected_rows_bound _ _ _ M))
    as (_ & ->).
  apply app_nil_r.
Qed.

(** X6: of two calls on the same invoice that both succeed, the later one
    wins.  The line items are those of the later call, nothing of the
    earlier call's being left; a header field holds the value of the later
    patch where that has one, else the value of the earlier patch where that
    has one, else what it held before both; updated_at is the time of the
    later call; other invoices' rows and items are as before both. *)
Theorem later_call_wins now now' d invoice_id
    (earlier_patch later_patch : jsonb) (earlier_items later_items : list jsonb)
    v1 d1 v2 d2 :
  apply_invoice_update now d invoice_id earlier_patch earlier_items = (inr v1, d1)
  -> apply_invoice_update now' d1 invoice_id later_patch later_items = (inr v2, d2)
  -> Forall2 (fun r r2 =>
                if decide (SalesInvoices.id r = invoice_id)
                then header_patched now' (overlay later_patch earlier_patch) r r2
                else r2 = r)
             (sales_invoices d) (sales_invoices d2)
     /\ Forall2 (fun item r => select_item invoice_id item = inr r)
                later_items (items_of invoice_id d2)
     /\ items_of_others invoice_id d2 = items_of_others invoice_id d.
Proof.
  intros E1 E2. split; [|split].
  - rewrite apply_invoice_update_eq in E1, E2.
    destruct (fold_effects item_deleted _ _) as [l|]; [|discriminate].
    destruct (planned_casts _) as [?|[]]; [discriminate|].
    destruct (update_where _ _ _) as [e|[table returned]] eqn:U; [discriminate|].
    destruct (mapM _ _) as [e|rows]; [discriminate|].
    destruct (fold_effects (item_inserted _) _ _) as [l2|]; [|discriminate].
    injection E1 as _ <-. simpl in E2.
    destruct (fold_effects item_deleted _ _) as [l3|]; [|discriminate].
    destruct (planned_casts _) as [?|[]]; [discriminate|].
    destruct (update_where _ _ table) as [e|[table' returned']] eqn:U';
      [discriminate|].
    destruct (mapM _ _) as [e|rows']; [discriminate|].
    destruct (fold_effects (item_inserted _) _ _) as [l4|]; [|discriminate].
    injection E2 as _ <-. simpl.
    apply update_where_inr in U, U'. destruct U as (F & _), U' as (F' & _).
    clear -F F'. revert table' F'.
    induction F as [|r r1 rs t1 Hr _ IH]; intros table' F'.
    + inversion F'. constructor.
    + inversion F' as [|? r2 ? t2 Hr1 F2]; subst. constructor; [|apply IH; exact F2].
      destruct (decide (SalesInvoices.id r = invoice_id)) as [Y|Y].
      * rewrite bool_decide_eq_true_2 in Hr by assumption.
        apply new_version_inr in Hr. destruct Hr as (Hr & _).
        pose proof (set_clause_patched _ _ _ _ Hr) as (_ & _ & Hid & _).
        rewrite bool_decide_eq_true_2 in Hr1 by congruence.
        apply new_version_inr in Hr1. destruct Hr1 as (Hr1 & _).
        eapply set_clause_twice; eassumption.
      * rewrite bool_decide_eq_false_2 in Hr by assumption. subst r1.
        rewrite bool_decide_eq_false_2 in Hr1 by assumption. exact Hr1.
  - eapply replacement_rows. exact E2.
  - pose proof (others_kept now' d1 invoice_id later_patch later_items) as O2.
    pose proof (others_kept now d invoice_id earlier_patch earlier_items) as O1.
    rewrite E2 in O2. rewrite E1 in O1. simpl in O1, O2. congruence.
Qed.

End Further.

Section ShopAgain.
Import Examples MoreExamples.

Lemma extra_item_members_are_ignored_witness :
  apply_invoice_update 2000%Z shop 7%N note_patch
    [JObject [("product_id", JString "00000000-0000-0000-0000-0000000000a1");
              ("quantity", JNumber "6");
              ("delivery_challan_item_id", JNull)]]
  = apply_invoice_update 2000%Z shop 7%N note_patch [item_of_another_invoice].
Proof.
  destruct (extra_item_members_are_ignored 2000%Z shop 7%N note_patch
              [item_of_another_invoice]
              (fun key => negb (String.eqb key "invoice_id"))) as (T & _).
  - intros key Hin. unfold item_fields, item_casts in Hin. simpl in Hin.
    repeat (destruct Hin as [<-|Hin]; [reflexivity|]). destruct Hin.
  - exact T.
Defined.

Lemma patch_without_values_only_stamps_witness :
  exists v d',
    apply_invoice_update 2000%Z shop 7%N null_patch [] = (inr v, d')
    /\ sales_invoices d' = [stamped 2000%Z invoice_7].
Proof.
  eexists _, _. split; [reflexivity|].
  eapply (patch_without_values_only_stamps 2000%Z shop 7%N null_patch []);
    [|reflexivity].
  intros key Hin. unfold updatable_fields in Hin. simpl in Hin.
  repeat (destruct Hin as [<-|Hin]; [reflexivity|]). destruct Hin.
Defined.

Lemma every_error_has_a_cause_witness :
  ((exists key, In (key, ty_date) header_casts
                /\ date_patch ->> key = Some "not-a-date"
                /\ input_ok ty_date "not-a-date" = false
                /\ (ty_date = ty_date -> invoice_exists 7%N shop))
   \/ (exists item key, In item [] /\ In (key, ty_date) item_casts
                        /\ item ->> key = Some "not-a-date"
                        /\ input_ok ty_date "not-a-date" = false
                        /\ (key = "delivery_challan_item_id"
                            -> "not-a-date" <> EmptyString)))
  /\ ((exists key, In (key, ty_numeric) header_casts
                   /\ subtotal_patch ->> key = Some "abc"
                   /\ input_ok ty_numeric "abc" = false
                   /\ (ty_numeric = ty_date -> invoice_exists 9%N shop))
      \/ (exists item key, In item [] /\ In (key, ty_numeric) item_casts
                           /\ item ->> key = Some "abc"
                           /\ input_ok ty_numeric "abc" = false
                           /\ (key = "delivery_challan_item_id"
                               -> "abc" <> EmptyString))).
Proof.
  split.
  - apply (every_error_has_a_cause 2000%Z shop 7%N date_patch []
             (invalid_text_representation ty_date "not-a-date") shop).
    reflexivity.
  - apply (every_error_has_a_cause 2000%Z shop 9%N subtotal_patch []
             (invalid_text_representation ty_numeric "abc") shop).
    reflexivity.
Defined.

Lemma ledger_after_deletions_then_insertions_witness :
  exists l,
    fold_effects item_deleted (items_of 7%N shop) (ledger_state shop) = Some l
    /\ fold_effects (item_inserted (sales_invoices shop_after))
                    (items_of 7%N shop_after) l
       = Some (ledger_state shop_after)
    /\ Forall (fun r' => SalesInvoices.id r' = 7%N -> invoice_constraints l r' = true)
              (sales_invoices shop_after).
Proof.
  exact (proj1 (ledger_after_deletions_then_insertions _ _ _ _ _ _ _ shop_updated)).
Defined.

Lemma later_call_wins_witness :
  exists v2 d2,
    apply_invoice_update 3000%Z shop_after 7%N order_patch
                         [item_without_batch "7" EmptyString] = (inr v2, d2)
    /\ Forall2 (fun r r2 =>
                  if decide (SalesInvoices.id r = 7%N)
                  then header_patched 3000%Z (overlay order_patch note_patch) r r2
                  else r2 = r)
               (sales_invoices shop) (sales_invoices d2).
Proof.
  eexists _, _. split; [reflexivity|].
  eapply (later_call_wins 2000%Z 3000%Z shop 7%N note_patch order_patch
            [item_without_batch "6" EmptyString]
            [item_without_batch "7" EmptyString]).
  - exact shop_updated.
  - reflexivity.
Defined.

End ShopAgain.

(** * Properties of the forms *)

Section ProductSourcesFacts.
Import ProductSources.

Lemma or_null_or_string (a : option string) (b : string) :
  or_null (or_string a b)
  = match a with
    | Some t => if String.eqb t EmptyString then or_null b else Some t
    | None => or_null b
    end.
Proof.
  unfold or_string, or_null. destruct a as [t|]; [|reflexivity].
  destruct (String.eqb t EmptyString) eqn:E; [reflexivity|]. rewrite E. reflexivity.
Qed.

(** X7: editing a source and saving the form untouched.  A field that is
    filled is saved as it is stored; supplier, name, country and remarks
    that are null or empty are saved as null; a grade that is null or empty
    is saved as BP.  Saved once this way, a source is saved unchanged by
    every further untouched edit. *)
Theorem untouched_edit_round_trip (productId : string) (source : ProductSource) :
  let saved := dataToSave productId (handleEdit source) in
  (filled (supplier_id source) -> saved_supplier_id saved = supplier_id source)
  /\ (filled (supplier_name source) -> saved_supplier_name saved = supplier_name source)
  /\ (filled (grade source) -> saved_grade saved = grade source)
  /\ (filled (country source) -> saved_country saved = country source)
  /\ (filled (remarks source) -> saved_remarks saved = remarks source)
  /\ (~ filled (supplier_id source) -> saved_supplier_id saved = None)
  /\ (~ filled (supplier_name source) -> saved_supplier_name saved = None)
  /\ (~ filled (grade source) -> saved_grade saved = Some "BP")
  /\ (~ filled (country source) -> saved_country saved = None)
  /\ (~ filled (remarks source) -> saved_remarks saved = None)
  /\ dataToSave productId (handleEdit (updated source saved)) = saved.
Proof.
  assert (forall a b, filled a -> or_null (or_string a b) = a) as F.
  { intros a b (t & -> & N). rewrite or_null_or_string.
    apply String.eqb_neq in N. rewrite N. reflexivity. }
  assert (forall a b, ~ filled a -> or_null (or_string a b) = or_null b) as E.
  { intros a b N. rewrite or_null_or_string. destruct a as [t|]; [|reflexivity].
    destruct (String.eqb_spec t EmptyString); [reflexivity|].
    exfalso. apply N. exists t. auto. }
  assert (forall a b, or_null (or_string (or_null (or_string a b)) b)
                      = or_null (or_string a b)) as I.
  { intros a b. unfold or_null, or_string. repeat case_match; congruence. }
  cbv zeta. unfold dataToSave, handleEdit, updated. simpl.
  repeat split; intros; try (apply F; assumption);
    try (rewrite E by assumption; reflexivity).
  rewrite !I. reflexivity.
Qed.







End ProductSourcesFacts.

Section ArrayFacts.
Context {A : Type}.

Lemma filter_index_all (keep : nat -> bool) (i : nat) (l : list A) :
  (forall j, (i <= j)%nat -> keep j = true) -> filter_index keep i l = l.
Proof.
  revert i. induction l as [|x l IH]; intros i K; [reflexivity|].
  simpl. rewrite (K i) by lia. f_equal. apply IH. intros j Hj. apply K. lia.
Qed.

Lemma filter_index_skip (index i : nat) (l : list A) :
  filter_index (fun j => negb (Nat.eqb j (i + index))) i l
  = take index l ++ drop (S index) l.
Proof.
  revert index i. induction l as [|x l IH]; intros index i.
  - destruct index; reflexivity.
  - destruct index as [|index]; simpl.
    + rewrite Nat.add_0_r, Nat.eqb_refl. simpl. rewrite drop_0.
      apply filter_index_all. intros j Hj.
      apply negb_true_iff, Nat.eqb_neq. lia.
    + destruct (Nat.eqb_spec i (i + S index)) as [E|_]; [lia|]. simpl.
      f_equal. rewrite <- (IH index (S i)).
      replace (S i + index)%nat with (i + S index)%nat by lia. reflexivity.
Qed.

(** Filtering an index out takes the element at that index out, and
    nothing else. *)
Lemma without_index_spec (index : nat) (l : list A) :
  without_index index l = take index l ++ drop (S index) l.
Proof. unfold without_index. apply (filter_index_skip index 0). Qed.

Lemma without_index_length (index : nat) (l : list A) :
  length (without_index index l)
  = if (index <? length l)%nat then (length l - 1)%nat else length l.
Proof.
  rewrite without_index_spec, length_app, length_take, length_drop.
  destruct (Nat.ltb_spec index (length l)); lia.
Qed.

Lemma sublist_without (index : nat) (l : list A) :
  sublist (take index l ++ drop (S index) l) l.
Proof.
  rewrite <- (take_drop index l) at 3.
  apply sublist_app; [reflexivity|].
  replace (S index) with (index + 1)%nat by lia.
  rewrite <- drop_drop. apply sublist_drop.
Qed.

End ArrayFacts.

Section PurchaseInvoiceFacts.
Import PurchaseInvoiceManager.
Variable parseFloat : string -> number.

Lemma or_zero_is_a_number (x : number) : is_NaN (or_zero x) = false.
Proof.
  unfold or_zero, falsy, is_NaN.
  destruct (PrimFloat.eqb x 0%float) eqn:Z; simpl; [reflexivity|].
  destruct (PrimFloat.eqb x x) eqn:E; simpl; [rewrite E|]; reflexivity.
Qed.

Lemma newLine_consistent : consistent newLine.
Proof. repeat split. Qed.

Lemma assign_consistent (index : nat) (write : PurchaseInvoiceItem -> PurchaseInvoiceItem)
    (lineItems lineItems' : list PurchaseInvoiceItem) :
  (forall line, consistent line -> consistent (write line))
  -> assign index write lineItems = Some lineItems'
  -> Forall consistent lineItems
  -> Forall consistent lineItems' /\ length lineItems' = length lineItems.
Proof.
  intros W. unfold assign. destruct (lineItems !! index) as [line|] eqn:L;
    [|discriminate].
  intros [= <-] F. split; [|apply length_insert].
  apply Forall_insert; [exact F|]. apply W.
  rewrite Forall_forall in F. apply F. eapply list_elem_of_lookup_2. exact L.
Qed.

Lemma handleLineChange_consistent (products : list Product.t)
    (lineItems lineItems' : list PurchaseInvoiceItem) (index : nat) (f : field)
    (value : string) :
  handleLineChange parseFloat products lineItems index f value = Some lineItems'
  -> Forall consistent lineItems
  -> Forall consistent lineItems' /\ length lineItems' = length lineItems.
Proof.
  unfold handleLineChange. destruct f.
  - destruct (List.find _ products) as [product|].
    + apply assign_consistent. intros line (Q & R & E). repeat split; assumption.
    + intros [= <-]. auto.
  - apply assign_consistent. intros line (Q & R & E). repeat split; assumption.
  - apply assign_consistent. intros line (Q & R & E). repeat split; assumption.
  - apply assign_consistent. intros line (Q & R & E).
    repeat split; simpl; [apply or_zero_is_a_number|assumption].
  - apply assign_consistent. intros line (Q & R & E).
    repeat split; simpl; [assumption|apply or_zero_is_a_number].
  - apply assign_consistent. intros line (Q & R & E). repeat split; assumption.
Qed.

(** X9: whatever the user does on the form (adding and removing lines,
    changing fields, resetting), there is always at least one line, and on
    every line quantity and rate are numbers (never NaN) and the amount is
    quantity times rate. *)
Theorem lines_stay_consistent (products : list Product.t) (actions : list action) :
  session_lines parseFloat products actions <> []
  /\ Forall consistent (session_lines parseFloat products actions).
Proof.
  unfold session_lines.
  assert (resetForm <> [] /\ Forall consistent resetForm) as Start.
  { split; [discriminate|]. repeat constructor. }
  revert Start. generalize resetForm as lineItems.
  induction actions as [|a actions IH]; intros lineItems (Ne & F); [auto|].
  simpl. apply IH. destruct a as [|index|index f value|]; simpl.
  - unfold handleAddLine. split.
    + destruct lineItems; discriminate.
    + apply Forall_app. split; [exact F|]. repeat constructor.
  - unfold handleRemoveLine. destruct (Nat.ltb_spec 1 (length lineItems)) as [L|L];
      [|auto].
    split.
    + intros E. apply (f_equal length) in E.
      rewrite without_index_length in E. simpl in E.
      destruct (index <? length lineItems)%nat; lia.
    + rewrite without_index_spec. apply Forall_app. split.
      * apply Forall_take. exact F.
      * apply Forall_drop. exact F.
  - destruct (handleLineChange parseFloat products lineItems index f value)
      as [lineItems'|] eqn:C; [|auto].
    destruct (handleLineChange_consistent _ _ _ _ _ _ C F) as (F' & L).
    split; [|exact F'].
    intros ->. destruct lineItems; [contradiction|discriminate L].
  - split; [discriminate|]. repeat constructor.
Qed.


Lemma first_alert_none (i : nat) (lineItems : list PurchaseInvoiceItem) :
  first_alert i lineItems = None
  <-> Forall (fun item => product_id item <> EmptyString
                          /\ PrimFloat.leb (quantity item) 0%float = false
                          /\ PrimFloat.leb (rate item) 0%float = false)
             lineItems.
Proof.
  revert i. induction lineItems as [|item rest IH]; intros i; simpl.
  - split; [constructor|reflexivity].
  - unfold line_alert.
    destruct (String.eqb_spec (product_id item) EmptyString) as [E|E].
    { split; [discriminate|]. intros F.
      inversion F as [|? ? (P & Lq & Lr) F']; subst. contradiction. }
    destruct (PrimFloat.leb (quantity item) 0%float) eqn:Q.
    { split; [discriminate|]. intros F.
      inversion F as [|? ? (P & Lq & Lr) F']; subst. congruence. }
    destruct (PrimFloat.leb (rate item) 0%float) eqn:R.
    { split; [discriminate|]. intros F.
      inversion F as [|? ? (P & Lq & Lr) F']; subst. congruence. }
    rewrite IH. split.
    + intros F. constructor; auto.
    + intros F. inversion F; assumption.
Qed.

Lemma first_alert_some (i : nat) (lineItems : list PurchaseInvoiceItem)
    (message : string) :
  first_alert i lineItems = Some message
  -> exists k item,
       lineItems !! k = Some item
       /\ line_alert (i + k) item = Some message
       /\ first_alert i (take k lineItems) = None.
Proof.
  revert i. induction lineItems as [|item rest IH]; intros i; simpl; [discriminate|].
  destruct (line_alert i item) as [m|] eqn:L.
  - intros [= <-]. exists 0%nat, item. rewrite Nat.add_0_r. auto.
  - intros E. destruct (IH _ E) as (k & item' & Hk & Ha & Hn).
    exists (S k), item'. simpl. rewrite L.
    replace (i + S k)%nat with (S i + k)%nat by lia. auto.
Qed.

(** X11: handleSubmit goes on to save exactly when the user may manage,
    a supplier is selected, some line has an amount other than zero, and
    every line has a product, a quantity that is not [<= 0] and a rate that
    is not [<= 0]; when a line stops it, the alert is about the first line
    that fails a check, all lines before it passing. *)
Theorem submit_is_validated (canManage : bool) (supplier_id : string)
    (lineItems : list PurchaseInvoiceItem) :
  (validate canManage supplier_id lineItems = None
   <-> canManage = true /\ supplier_id <> EmptyString
       /\ Exists (fun item => PrimFloat.eqb (amount item) 0%float = false) lineItems
       /\ Forall (fun item => product_id item <> EmptyString
                              /\ PrimFloat.leb (quantity item) 0%float = false
                              /\ PrimFloat.leb (rate item) 0%float = false)
                 lineItems)
  /\ (forall message,
        first_alert 0 lineItems = Some message
        -> exists k item,
             lineItems !! k = Some item
             /\ line_alert k item = Some message
             /\ first_alert 0 (take k lineItems) = None).
Proof.
  split; [|intros message E; apply (first_alert_some 0 _ _ E)].
  unfold validate.
  assert (forallb (fun item => PrimFloat.eqb (amount item) 0%float) lineItems = false
          <-> Exists (fun item => PrimFloat.eqb (amount item) 0%float = false)
                     lineItems) as Ex.
  { induction lineItems as [|item rest IH]; simpl.
    - split; [discriminate|]. intros E. inversion E.
    - destruct (PrimFloat.eqb (amount item) 0%float) eqn:Z; simpl.
      + rewrite IH. split; [intros E; right; exact E|].
        intros E. inversion E; subst; [congruence|assumption].
      + split; [intros _; left; exact Z|reflexivity]. }
  destruct canManage; simpl; [|split; [discriminate|intros (? & _); discriminate]].
  destruct (String.eqb_spec supplier_id EmptyString) as [E|E].
  { split; [discriminate|]. intros (_ & N & _). contradiction. }
  destruct lineItems as [|item rest] eqn:L.
  { simpl. split; [discriminate|]. intros (_ & _ & X & _). inversion X. }
  rewrite <- L in *. assert ((length lineItems =? 0)%nat = false) as ->.
  { subst lineItems. reflexivity. }
  simpl. destruct (forallb _ lineItems) eqn:Fa.
  - split; [discriminate|]. intros (_ & _ & X & _). apply Ex in X. discriminate.
  - rewrite first_alert_none. split.
    + intros F. repeat split; auto. apply Ex. reflexivity.
    + intros (_ & _ & _ & F). exact F.
Qed.


End PurchaseInvoiceFacts.

Section PurchaseInvoiceExamples.
Import PurchaseInvoiceManager FormExamples.

Example two_kilos_ordered :
  session_lines parse_digits [solvent] order_two_kilos
  = [{| product_id := "p1"; product_name := "Solvent"; unit := "kg";
        quantity := 2%float; rate := 3%float; amount := 6%float;
        narration := "Solvent" |}].
Proof. reflexivity. Qed.

Example unknown_product_changes_nothing :
  handleLineChange parse_digits [solvent] resetForm 0 field_product_id "p2"
  = Some resetForm.
Proof. reflexivity. Qed.

Example no_number_is_zero :
  handleLineChange parse_digits [solvent] resetForm 0 field_quantity "abc"
  = Some [{| product_id := EmptyString; product_name := EmptyString;
             unit := EmptyString; quantity := 0%float; rate := 0%float;
             amount := 0%float; narration := EmptyString |}].
Proof. reflexivity. Qed.

Example blank_form_is_stopped :
  validate true "s1" resetForm = Some "Please add at least one line item".
Proof. reflexivity. Qed.

Example second_line_is_named :
  validate true "s1"
    (session_lines parse_digits [solvent]
       [ChangeLine 0 field_product_id "p1"; ChangeLine 0 field_rate "3"; AddLine])
  = Some "Line 2: Please select a product".
Proof. reflexivity. Qed.



End PurchaseInvoiceExamples.

Section SourceDocumentsFacts.
Import SourceDocuments.
Context {File : Type}.

(** X13: editing the upload queue touches one entry.  Changing the type
    of an entry keeps every file in its place and every other entry as it
    is, and fails only when there is no entry at the index; removing an
    entry takes out the entry at the index and no other. *)
Theorem queue_edits_touch_one_entry (index : nat) (new_type : string)
    (queue : list (QueueItem File)) :
  (forall queue',
     updateQueueItemType File index new_type queue = Some queue'
     -> List.map (file File) queue' = List.map (file File) queue
        /\ doc_type File <$> queue' !! index = Some new_type
        /\ forall j, j <> index -> queue' !! j = queue !! j)
  /\ (updateQueueItemType File index new_type queue = None
      <-> (length queue <= index)%nat)
  /\ removeFromQueue File index queue = take index queue ++ drop (S index) queue
  /\ ((length queue <= index)%nat -> removeFromQueue File index queue = queue).
Proof.
  unfold updateQueueItemType, removeFromQueue. repeat split.
  - destruct (queue !! index) as [item|] eqn:L; [|discriminate].
    injection H as <-.
    apply list_eq. intros j. rewrite !list_lookup_fmap.
    destruct (decide (j = index)) as [->|N].
    + rewrite list_lookup_insert_eq by (eapply lookup_lt_Some; exact L).
      rewrite L. reflexivity.
    + rewrite list_lookup_insert_ne by auto. reflexivity.
  - destruct (queue !! index) as [item|] eqn:L; [|discriminate].
    injection H as <-.
    rewrite list_lookup_insert_eq by (eapply lookup_lt_Some; exact L).
    reflexivity.
  - destruct (queue !! index) as [item|] eqn:L; [|discriminate].
    injection H as <-. intros j N. apply list_lookup_insert_ne. auto.
  - destruct (queue !! index) as [item|] eqn:L; [discriminate|].
    intros _. apply lookup_ge_None. exact L.
  - intros G. apply lookup_ge_None in G. rewrite G. reflexivity.
  - apply without_index_spec.
  - intros G. rewrite without_index_spec, take_ge, drop_ge by lia.
    apply app_nil_r.
Qed.

(** X14: the files in the upload queue are, in their order of arrival,
    files that were selected, dropped or pasted since the dialog opened:
    no action on the queue reorders, duplicates or invents a file. *)
Theorem queue_holds_arrived_files (actions : list (action File)) :
  sublist (List.map (file File) (fold_left (step File) actions []))
          (arrived File actions).
Proof.
  assert (forall (queue : list (QueueItem File)) (before : list File),
            sublist (List.map (file File) queue) before
            -> sublist (List.map (file File) (fold_left (step File) actions queue))
                       (before ++ arrived File actions)) as G.
  { induction actions as [|a actions IH]; intros queue before S.
    - simpl. unfold arrived. simpl. rewrite app_nil_r. exact S.
    - simpl. unfold arrived. simpl. fold (arrived File actions).
      rewrite app_assoc. apply IH.
      destruct a as [files|index|index new_type|]; simpl.
      + unfold enqueue. rewrite map_app, map_map. simpl. rewrite map_id.
        apply sublist_app; [exact S|reflexivity].
      + rewrite app_nil_r. unfold removeFromQueue. rewrite without_index_spec.
        etransitivity; [|exact S].
        apply (fmap_sublist (file File)). apply sublist_without.
      + rewrite app_nil_r.
        destruct (updateQueueItemType File index new_type queue) as [queue'|] eqn:U;
          [|exact S].
        unfold updateQueueItemType in U.
        destruct (queue !! index) as [item|] eqn:L; [|discriminate].
        injection U as <-.
        assert (List.map (file File)
                         (<[index := {| file := file File item;
                                        doc_type := new_type |}]> queue)
                = List.map (file File) queue) as ->; [|exact S].
        apply list_eq. intros j. rewrite !list_lookup_fmap.
        destruct (decide (j = index)) as [->|N].
        * rewrite list_lookup_insert_eq by (eapply lookup_lt_Some; exact L).
          rewrite L. reflexivity.
        * rewrite list_lookup_insert_ne by auto. reflexivity.
      + rewrite app_nil_r. apply sublist_nil_l. }
  apply (G [] []). constructor.
Qed.

End SourceDocumentsFacts.

Section FormWitnesses.
Import ProductSources SourceDocuments.

Lemma untouched_edit_round_trip_witness :
  let source := {| id := "s1"; product_id := "p1"; supplier_id := None;
                   supplier_name := Some "Acme"; grade := None;
                   country := Some EmptyString; remarks := None;
                   supplier_company_name := None |} in
  let saved := dataToSave "p1" (handleEdit source) in
  saved_supplier_name saved = Some "Acme"
  /\ saved_grade saved = Some "BP"
  /\ saved_country saved = None.
Proof.
  intros source saved.
  destruct (untouched_edit_round_trip "p1" source)
    as (_ & N & _ & _ & _ & _ & _ & G & C & _).
  split; [|split].
  - apply N. exists "Acme". split; [reflexivity|discriminate].
  - apply G. intros (t & E & _). discriminate E.
  - apply C. intros (t & [= <-] & E). apply E. reflexivity.
Defined.

Lemma queue_edits_touch_one_entry_witness :
  List.map (file string)
           [{| file := "a.pdf"; doc_type := "Other" |};
            {| file := "b.pdf"; doc_type := "COA" |}]
  = ["a.pdf"; "b.pdf"].
Proof.
  destruct (queue_edits_touch_one_entry (File := string) 1 "COA"
              [{| file := "a.pdf"; doc_type := "Other" |};
               {| file := "b.pdf"; doc_type := "Other" |}]) as (T & _).
  destruct (T [{| file := "a.pdf"; doc_type := "Other" |};
               {| file := "b.pdf"; doc_type := "COA" |}] eq_refl) as (E & _).
  exact E.
Defined.

End FormWitnesses.
